(** * go-wit: the entity client of the Wit API binding (entities.go)

    A shallow embedding of [entities.go] and of the parts of Go's standard
    library it calls ([unicode/utf8], [encoding/json], [net/url]), followed
    by the properties of the client operations.

    Conventions.
    - A Go [string] is a Rocq [string]: a sequence of bytes ([ascii]).
    - A Go slice [[]T] is [slice T := option (list T)]; [None] is the nil
      slice, [Some nil] the empty, non-nil one.
    - A Go pointer is an optional address into a typed store; [None] is nil.
    - A Go [error] is [option GoError]; [None] is nil.
    - The package helpers [get], [post], [put] and [delete] live in another
      file of the package; a call to one of them is recorded and answered by
      a transport, a function from the call to [(body, statusCode, err)]. *)

From Stdlib Require Import String Ascii List ZArith Lia Bool FMapPositive.
Import ListNotations.

Set Warnings "-register-all".

Open Scope string_scope.
Open Scope Z_scope.

(** ** Bytes *)

Definition byte_val (c : ascii) : Z := Z.of_N (N_of_ascii c).

(** Go's conversion [byte(x)]: the low eight bits. *)
Definition byte_of (z : Z) : ascii := ascii_of_N (Z.to_N z).

Definition dquote : ascii := "034"%char.
Definition bslash : ascii := "092"%char.

Definition slice (A : Type) : Type := option (list A).

(** [[]byte]: the bytes are kept as a [string]. *)
Definition bytes : Type := option string.

(** [s[n:]] and [s[:n]] on strings. *)
Fixpoint drop_str (n : nat) (s : string) : string :=
  match n, s with
  | O, _ => s
  | S n', String _ r => drop_str n' r
  | S _, EmptyString => EmptyString
  end.

Fixpoint take_str (n : nat) (s : string) : string :=
  match n, s with
  | O, _ => EmptyString
  | S n', String c r => String c (take_str n' r)
  | S _, EmptyString => EmptyString
  end.

Fixpoint str_mem (c : ascii) (s : string) : bool :=
  match s with
  | EmptyString => false
  | String d r => Ascii.eqb c d || str_mem c r
  end.

Fixpoint str_nth (n : nat) (s : string) (d : ascii) : ascii :=
  match s, n with
  | EmptyString, _ => d
  | String c _, O => c
  | String _ r, S n' => str_nth n' r d
  end.

(** ** unicode/utf8 *)

Module utf8.

Definition RuneError : Z := 0xFFFD.
Definition RuneSelf : Z := 0x80.
Definition MaxRune : Z := 0x10FFFF.
Definition surrogateMin : Z := 0xD800.
Definition surrogateMax : Z := 0xDFFF.

Definition maskx : Z := 0x3F.
Definition mask2 : Z := 0x1F.
Definition mask3 : Z := 0x0F.
Definition mask4 : Z := 0x07.
Definition locb : Z := 0x80.
Definition hicb : Z := 0xBF.

(** The table [first] together with [acceptRanges]: for a leading byte,
    the length of the sequence and the range allowed for the second
    byte; [None] for a byte that cannot start a multi-byte sequence. *)
Definition first (p0 : Z) : option (nat * Z * Z) :=
  if (0xC2 <=? p0) && (p0 <=? 0xDF) then Some (2%nat, locb, hicb)
  else if p0 =? 0xE0 then Some (3%nat, 0xA0, hicb)
  else if (0xE1 <=? p0) && (p0 <=? 0xEC) then Some (3%nat, locb, hicb)
  else if p0 =? 0xED then Some (3%nat, locb, 0x9F)
  else if (0xEE <=? p0) && (p0 <=? 0xEF) then Some (3%nat, locb, hicb)
  else if p0 =? 0xF0 then Some (4%nat, 0x90, hicb)
  else if (0xF1 <=? p0) && (p0 <=? 0xF3) then Some (4%nat, locb, hicb)
  else if p0 =? 0xF4 then Some (4%nat, locb, 0x8F)
  else None.

Definition is_cont (b : Z) : bool := (locb <=? b) && (b <=? hicb).

(** [utf8.DecodeRuneInString]: the first rune of [s] and its width in
    bytes; [(RuneError, 1)] for an invalid encoding, [(RuneError, 0)] for
    the empty string. *)
Definition DecodeRuneInString (s : string) : Z * nat :=
  match s with
  | EmptyString => (RuneError, 0%nat)
  | String c0 s1 =>
    let p0 := byte_val c0 in
    if p0 <? RuneSelf then (p0, 1%nat)
    else
      match first p0 with
      | None => (RuneError, 1%nat)
      | Some (sz, lo, hi) =>
        match s1 with
        | EmptyString => (RuneError, 1%nat)
        | String c1 s2 =>
          let b1 := byte_val c1 in
          if (b1 <? lo) || (hi <? b1) then (RuneError, 1%nat)
          else if (sz <=? 2)%nat then
            (Z.lor (Z.shiftl (Z.land p0 mask2) 6) (Z.land b1 maskx), 2%nat)
          else
            match s2 with
            | EmptyString => (RuneError, 1%nat)
            | String c2 s3 =>
              let b2 := byte_val c2 in
              if negb (is_cont b2) then (RuneError, 1%nat)
              else if (sz <=? 3)%nat then
                (Z.lor (Z.lor (Z.shiftl (Z.land p0 mask3) 12)
                              (Z.shiftl (Z.land b1 maskx) 6))
                       (Z.land b2 maskx), 3%nat)
              else
                match s3 with
                | EmptyString => (RuneError, 1%nat)
                | String c3 _ =>
                  let b3 := byte_val c3 in
                  if negb (is_cont b3) then (RuneError, 1%nat)
                  else
                    (Z.lor (Z.lor (Z.lor (Z.shiftl (Z.land p0 mask4) 18)
                                         (Z.shiftl (Z.land b1 maskx) 12))
                                  (Z.shiftl (Z.land b2 maskx) 6))
                           (Z.land b3 maskx), 4%nat)
                end
            end
        end
      end
  end.

Definition encode3 (r : Z) : string :=
  String (byte_of (Z.lor 0xE0 (Z.shiftr r 12)))
    (String (byte_of (Z.lor 0x80 (Z.land (Z.shiftr r 6) maskx)))
      (String (byte_of (Z.lor 0x80 (Z.land r maskx))) EmptyString)).

(** [utf8.EncodeRune] / [utf8.AppendRune]: the UTF-8 encoding of a rune;
    a surrogate or a value above [MaxRune] is encoded as [RuneError]. *)
Definition EncodeRune (r : Z) : string :=
  if r <=? 0x7F then String (byte_of r) EmptyString
  else if r <=? 0x7FF then
    String (byte_of (Z.lor 0xC0 (Z.shiftr r 6)))
      (String (byte_of (Z.lor 0x80 (Z.land r maskx))) EmptyString)
  else if (MaxRune <? r) || ((surrogateMin <=? r) && (r <=? surrogateMax))
  then encode3 RuneError
  else if r <=? 0xFFFF then encode3 r
  else
    String (byte_of (Z.lor 0xF0 (Z.shiftr r 18)))
      (String (byte_of (Z.lor 0x80 (Z.land (Z.shiftr r 12) maskx)))
        (String (byte_of (Z.lor 0x80 (Z.land (Z.shiftr r 6) maskx)))
          (String (byte_of (Z.lor 0x80 (Z.land r maskx))) EmptyString))).

(** [utf8.ValidString], by the decoder: every byte starts or continues a
    well-formed sequence. *)
Fixpoint valid_from (fuel : nat) (s : string) : bool :=
  match fuel with
  | O => match s with EmptyString => true | _ => false end
  | S fuel' =>
    match s with
    | EmptyString => true
    | String c _ =>
      let '(r, size) := DecodeRuneInString s in
      if (r =? RuneError) && (size =? 1)%nat then false
      else valid_from fuel' (drop_str size s)
    end
  end.

Definition ValidString (s : string) : bool :=
  valid_from (String.length s) s.

End utf8.

(** ** unicode/utf16 (the part [encoding/json] uses for [\u] escapes) *)

Module utf16.

Definition surr1 : Z := 0xD800.
Definition surr2 : Z := 0xDC00.
Definition surr3 : Z := 0xE000.
Definition surrSelf : Z := 0x10000.
Definition replacementChar : Z := 0xFFFD.

Definition IsSurrogate (r : Z) : bool := (surr1 <=? r) && (r <? surr3).

Definition DecodeRune (r1 r2 : Z) : Z :=
  if (surr1 <=? r1) && (r1 <? surr2) && (surr2 <=? r2) && (r2 <? surr3)
  then Z.lor (Z.shiftl (r1 - surr1) 10) (r2 - surr2) + surrSelf
  else replacementChar.

End utf16.

(** ** Errors *)

Inductive GoError : Type :=
| TransportError (msg : string)
| SyntaxError (msg : string)
| UnmarshalTypeError (value : string) (type : string).

Definition error : Type := option GoError.

(** The first error wins: [encoding/json] saves the first type error and
    goes on decoding. *)
Definition saveError (saved new : error) : error :=
  match saved with
  | Some _ => saved
  | None => new
  end.

(** ** encoding/json: JSON text *)

Module json.

(** A JSON document. Object members are kept in the order of the text,
    duplicates included; a number keeps its literal. *)
Inductive Value : Type :=
| Null
| Bool (b : bool)
| Number (lit : string)
| Str (s : string)
| Array (elems : list Value)
| Object (members : list (string * Value)).

(** *** Encoder *)

Definition hex : string := "0123456789abcdef".

Definition hex_digit (n : Z) : ascii := str_nth (Z.to_nat n) hex "0"%char.

(** [htmlSafeSet] on the bytes below [utf8.RuneSelf]: everything from the
    space on, except the double quote, the backslash and [&], [<], [>]. *)
Definition htmlSafe (b : Z) : bool :=
  (0x20 <=? b) && negb (b =? 0x22) && negb (b =? 0x5C)
  && negb (b =? 0x26) && negb (b =? 0x3C) && negb (b =? 0x3E).

Definition escape_byte (c : ascii) : string :=
  let b := byte_val c in
  if (b =? 0x5C) || (b =? 0x22) then String bslash (String c EmptyString)
  else if b =? 0x08 then String bslash "b"
  else if b =? 0x0C then String bslash "f"
  else if b =? 0x0A then String bslash "n"
  else if b =? 0x0D then String bslash "r"
  else if b =? 0x09 then String bslash "t"
  else
    String bslash
      (String "u" (String "0" (String "0"
        (String (hex_digit (Z.shiftr b 4))
          (String (hex_digit (Z.land b 0xF)) EmptyString))))).

(** The loop of [appendString] with [escapeHTML] set, as [Marshal] sets
    it: [s] is what is left of the source. For a byte that is no UTF-8 it
    writes the escape of U+FFFD, as the encoder of [encoding/json] does;
    an encoder that writes the three bytes of U+FFFD there instead is read
    back as the same string. *)
Fixpoint appendString_loop (fuel : nat) (s : string) : string :=
  match fuel with
  | O => EmptyString
  | S fuel' =>
    match s with
    | EmptyString => EmptyString
    | String c r =>
      let b := byte_val c in
      if b <? utf8.RuneSelf then
        (if htmlSafe b then String c EmptyString else escape_byte c)
        ++ appendString_loop fuel' r
      else
        let '(n, size) := utf8.DecodeRuneInString s in
        if (n =? utf8.RuneError) && (size =? 1)%nat then
          String bslash "ufffd" ++ appendString_loop fuel' r
        else if (n =? 0x2028) || (n =? 0x2029) then
          String bslash "u202"
          ++ String (hex_digit (Z.land n 0xF)) EmptyString
          ++ appendString_loop fuel' (drop_str size s)
        else
          take_str size s ++ appendString_loop fuel' (drop_str size s)
    end
  end.

Definition appendString (s : string) : string :=
  String dquote (appendString_loop (String.length s) s
                 ++ String dquote EmptyString).

Fixpoint print_elems (print : Value -> string) (vs : list Value) : string :=
  match vs with
  | nil => EmptyString
  | v :: nil => print v
  | v :: vs' => print v ++ "," ++ print_elems print vs'
  end.

Fixpoint print_members (print : Value -> string)
         (ms : list (string * Value)) : string :=
  match ms with
  | nil => EmptyString
  | (k, v) :: nil => appendString k ++ ":" ++ print v
  | (k, v) :: ms' =>
    appendString k ++ ":" ++ print v ++ "," ++ print_members print ms'
  end.

(** The compact text the encoder writes for a document. *)
Fixpoint print (v : Value) : string :=
  match v with
  | Null => "null"
  | Bool true => "true"
  | Bool false => "false"
  | Number lit => lit
  | Str s => appendString s
  | Array vs => "[" ++ print_elems print vs ++ "]"
  | Object ms => "{" ++ print_members print ms ++ "}"
  end.

(** *** Scanner and decoder of the text *)

Definition isSpace (c : ascii) : bool :=
  let b := byte_val c in
  (b =? 0x20) || (b =? 0x09) || (b =? 0x0D) || (b =? 0x0A).

Fixpoint skip_ws (s : string) : string :=
  match s with
  | EmptyString => EmptyString
  | String c r => if isSpace c then skip_ws r else s
  end.

Definition hexval (c : ascii) : option Z :=
  let b := byte_val c in
  if (0x30 <=? b) && (b <=? 0x39) then Some (b - 0x30)
  else if (0x61 <=? b) && (b <=? 0x66) then Some (b - 0x61 + 10)
  else if (0x41 <=? b) && (b <=? 0x46) then Some (b - 0x41 + 10)
  else None.

Definition isHex (c : ascii) : bool :=
  match hexval c with Some _ => true | None => false end.

Definition prepend (s : string) (r : option (string * string))
  : option (string * string) :=
  match r with
  | Some (raw, rest) => Some (s ++ raw, rest)
  | None => None
  end.

(** The scanner inside a string literal, after the opening quote: the
    raw text up to the closing quote, and what follows that quote. *)
Fixpoint scan_string (s : string) : option (string * string) :=
  match s with
  | EmptyString => None
  | String c r =>
    if Ascii.eqb c dquote then Some (EmptyString, r)
    else if Ascii.eqb c bslash then
      match r with
      | EmptyString => None
      | String e r' =>
        if str_mem e "bfnrt/" || Ascii.eqb e bslash || Ascii.eqb e dquote
        then prepend (String c (String e EmptyString)) (scan_string r')
        else if Ascii.eqb e "u" then
          match r' with
          | String h1 (String h2 (String h3 (String h4 r''))) =>
            if isHex h1 && isHex h2 && isHex h3 && isHex h4
            then prepend
                   (String c (String e (String h1 (String h2
                      (String h3 (String h4 EmptyString))))))
                   (scan_string r'')
            else None
          | _ => None
          end
        else None
      end
    else if byte_val c <? 0x20 then None
    else prepend (String c EmptyString) (scan_string r)
  end.

(** [getu4]: the rune of a [\uXXXX] at the head of [s], or [-1]. *)
Definition getu4 (s : string) : Z :=
  match s with
  | String c0 (String c1 (String h1 (String h2 (String h3 (String h4 _))))) =>
    if Ascii.eqb c0 bslash && Ascii.eqb c1 "u" then
      match hexval h1, hexval h2, hexval h3, hexval h4 with
      | Some a, Some b, Some c, Some d => ((a * 16 + b) * 16 + c) * 16 + d
      | _, _, _, _ => -1
      end
    else -1
  | _ => -1
  end.

(** [unquote]: the string a raw literal denotes. Invalid UTF-8 and lone
    surrogates become U+FFFD. *)
Fixpoint unquote_loop (fuel : nat) (s : string) : option string :=
  match s with
  | EmptyString => Some EmptyString
  | String c r =>
    match fuel with
    | O => None
    | S fuel' =>
      let b := byte_val c in
      if Ascii.eqb c bslash then
        match r with
        | EmptyString => None
        | String e r' =>
          let lit (x : ascii) := option_map (String x) (unquote_loop fuel' r') in
          if Ascii.eqb e dquote || Ascii.eqb e bslash || Ascii.eqb e "/"
             || Ascii.eqb e "'" then lit e
          else if Ascii.eqb e "b" then lit (byte_of 0x08)
          else if Ascii.eqb e "f" then lit (byte_of 0x0C)
          else if Ascii.eqb e "n" then lit (byte_of 0x0A)
          else if Ascii.eqb e "r" then lit (byte_of 0x0D)
          else if Ascii.eqb e "t" then lit (byte_of 0x09)
          else if Ascii.eqb e "u" then
            let rr := getu4 s in
            if rr <? 0 then None
            else
              let s6 := drop_str 6 s in
              if utf16.IsSurrogate rr then
                let dec := utf16.DecodeRune rr (getu4 s6) in
                if negb (dec =? utf16.replacementChar) then
                  option_map (String.append (utf8.EncodeRune dec))
                             (unquote_loop fuel' (drop_str 6 s6))
                else
                  option_map (String.append (utf8.EncodeRune utf16.replacementChar))
                             (unquote_loop fuel' s6)
              else
                option_map (String.append (utf8.EncodeRune rr))
                           (unquote_loop fuel' s6)
          else None
        end
      else if Ascii.eqb c dquote || (b <? 0x20) then None
      else if b <? utf8.RuneSelf then
        option_map (String c) (unquote_loop fuel' r)
      else
        let '(rr, size) := utf8.DecodeRuneInString s in
        option_map (String.append (utf8.EncodeRune rr))
                   (unquote_loop fuel' (drop_str size s))
    end
  end.

Definition unquote (raw : string) : option string :=
  unquote_loop (String.length raw) raw.

Definition isDigit (c : ascii) : bool :=
  let b := byte_val c in (0x30 <=? b) && (b <=? 0x39).

Fixpoint take_digits (s : string) : string * string :=
  match s with
  | EmptyString => (EmptyString, EmptyString)
  | String c r =>
    if isDigit c then
      let '(ds, rest) := take_digits r in (String c ds, rest)
    else (EmptyString, s)
  end.

Definition scan_exp (s : string) : option (string * string) :=
  match s with
  | String e r =>
    if Ascii.eqb e "e" || Ascii.eqb e "E" then
      let '(sign, r1) :=
        match r with
        | String g r0 =>
          if Ascii.eqb g "+" || Ascii.eqb g "-"
          then (String g EmptyString, r0) else (EmptyString, r)
        | EmptyString => (EmptyString, r)
        end in
      match take_digits r1 with
      | (EmptyString, _) => None
      | (ds, rest) => Some (String e (sign ++ ds), rest)
      end
    else Some (EmptyString, s)
  | EmptyString => Some (EmptyString, s)
  end.

Definition scan_frac (s : string) : option (string * string) :=
  match s with
  | String "." r =>
    match take_digits r with
    | (EmptyString, _) => None
    | (ds, rest) => prepend (String "." ds) (scan_exp rest)
    end
  | _ => scan_exp s
  end.

(** A number literal: an optional minus sign; a zero, or a non-zero digit
    and any digits; optionally a point and one digit or more; optionally
    an exponent, [e] or [E], a sign at most, and one digit or more. *)
Definition scan_number (s : string) : option (string * string) :=
  let '(sign, s1) :=
    match s with
    | String "-" r => ("-", r)
    | _ => (EmptyString, s)
    end in
  match s1 with
  | String c r =>
    if Ascii.eqb c "0" then prepend (sign ++ "0") (scan_frac r)
    else if isDigit c then
      let '(ds, rest) := take_digits r in
      prepend (sign ++ String c ds) (scan_frac rest)
    else None
  | EmptyString => None
  end.

Definition literal (word : string) (v : Value) (s : string)
  : option (Value * string) :=
  if String.eqb (take_str (String.length word) s) word
  then Some (v, drop_str (String.length word) s)
  else None.

Definition scan_key (s : string) : option (string * string) :=
  match skip_ws s with
  | String c r =>
    if Ascii.eqb c dquote then
      match scan_string r with
      | Some (raw, rest) =>
        match unquote raw with
        | Some k => Some (k, rest)
        | None => None
        end
      | None => None
      end
    else None
  | EmptyString => None
  end.

(** After white space, the character [c]: what follows it. *)
Definition next_is (c : ascii) (s : string) : option string :=
  match skip_ws s with
  | String d r => if Ascii.eqb d c then Some r else None
  | EmptyString => None
  end.

(** The scanner refuses a document whose arrays and objects nest deeper
    than this ([maxNestingDepth]). *)
Definition maxNestingDepth : Z := 10000.

(** [depth] is the number of arrays and objects that are open around the
    value. *)
Fixpoint parse_value (fuel : nat) (depth : Z) (s : string)
  : option (Value * string) :=
  match fuel with
  | O => None
  | S f =>
    match skip_ws s with
    | EmptyString => None
    | String c r =>
      if Ascii.eqb c "{" then
        if maxNestingDepth <? depth + 1 then None
        else
          match next_is "}" r with
          | Some r' => Some (Object nil, r')
          | None =>
            match parse_members f (depth + 1) r with
            | Some (ms, r') => Some (Object ms, r')
            | None => None
            end
          end
      else if Ascii.eqb c "[" then
        if maxNestingDepth <? depth + 1 then None
        else
          match next_is "]" r with
          | Some r' => Some (Array nil, r')
          | None =>
            match parse_elements f (depth + 1) r with
            | Some (vs, r') => Some (Array vs, r')
            | None => None
            end
          end
      else if Ascii.eqb c dquote then
        match scan_string r with
        | Some (raw, r') =>
          match unquote raw with
          | Some str => Some (Str str, r')
          | None => None
          end
        | None => None
        end
      else if Ascii.eqb c "t" then literal "true" (Bool true) (String c r)
      else if Ascii.eqb c "f" then literal "false" (Bool false) (String c r)
      else if Ascii.eqb c "n" then literal "null" Null (String c r)
      else
        match scan_number (String c r) with
        | Some (lit, r') => Some (Number lit, r')
        | None => None
        end
    end
  end
with parse_elements (fuel : nat) (depth : Z) (s : string)
     : option (list Value * string) :=
  match fuel with
  | O => None
  | S f =>
    match parse_value f depth s with
    | None => None
    | Some (v, r) =>
      match next_is "," r with
      | Some r' =>
        match parse_elements f depth r' with
        | Some (vs, r'') => Some (v :: vs, r'')
        | None => None
        end
      | None =>
        match next_is "]" r with
        | Some r' => Some (v :: nil, r')
        | None => None
        end
      end
    end
  end
with parse_members (fuel : nat) (depth : Z) (s : string)
     : option (list (string * Value) * string) :=
  match fuel with
  | O => None
  | S f =>
    match scan_key s with
    | None => None
    | Some (k, r) =>
      match next_is ":" r with
      | None => None
      | Some r1 =>
        match parse_value f depth r1 with
        | None => None
        | Some (v, r2) =>
          match next_is "," r2 with
          | Some r3 =>
            match parse_members f depth r3 with
            | Some (ms, r4) => Some ((k, v) :: ms, r4)
            | None => None
            end
          | None =>
            match next_is "}" r2 with
            | Some r3 => Some ((k, v) :: nil, r3)
            | None => None
            end
          end
        end
      end
    end
  end.

(** The whole input must be one document, with white space around it
    at most ([checkValid]). *)
Definition parse (data : string) : option Value :=
  match parse_value (S (String.length data)) 0 data with
  | Some (v, r) =>
    match skip_ws r with
    | EmptyString => Some v
    | _ => None
    end
  | None => None
  end.

End json.

(** ** The data model of entities.go *)

(** [type EntityValue struct]: a value within an entity. *)
Record EntityValue : Type := mkEntityValue {
  Value : string;                (* `json:"value"` *)
  Expressions : slice string     (* `json:"expressions"` *)
}.

(** [type Entity struct]. The field [Values] carries no tag: its JSON key
    is the field name. *)
Record Entity : Type := mkEntity {
  Builtin : bool;                (* `json:"builtin"` *)
  Doc : string;                  (* `json:"doc"` *)
  Id : string;                   (* `json:"id"` *)
  Values : slice EntityValue
}.

(** [type Entities []string]. *)
Definition Entities : Type := slice string.

(** The zero values, as [&Entity{}] and [&EntityValue{}] make them. *)
Definition zero_EntityValue : EntityValue :=
  {| Value := EmptyString; Expressions := None |}.

Definition zero_Entity : Entity :=
  {| Builtin := false; Doc := EmptyString; Id := EmptyString; Values := None |}.

(** The JSON keys of the fields, in the order of the declarations. *)
Inductive EntityValueField : Type := F_Value | F_Expressions.

Inductive EntityField : Type := F_Builtin | F_Doc | F_Id | F_Values.

Definition EntityValue_fields : list (string * EntityValueField) :=
  ("value", F_Value) :: ("expressions", F_Expressions) :: nil.

Definition Entity_fields : list (string * EntityField) :=
  ("builtin", F_Builtin) :: ("doc", F_Doc) :: ("id", F_Id)
  :: ("Values", F_Values) :: nil.

(** ** encoding/json: values of the types of entities.go *)

Module jsonrt.

(** *** Marshal *)

Definition encode_strings (l : slice string) : json.Value :=
  match l with
  | None => json.Null
  | Some xs => json.Array (List.map json.Str xs)
  end.

Definition encode_EntityValue (v : EntityValue) : json.Value :=
  json.Object
    (("value", json.Str (Value v))
     :: ("expressions", encode_strings (Expressions v)) :: nil).

Definition encode_EntityValues (l : slice EntityValue) : json.Value :=
  match l with
  | None => json.Null
  | Some xs => json.Array (List.map encode_EntityValue xs)
  end.

Definition encode_Entity (e : Entity) : json.Value :=
  json.Object
    (("builtin", json.Bool (Builtin e))
     :: ("doc", json.Str (Doc e))
     :: ("id", json.Str (Id e))
     :: ("Values", encode_EntityValues (Values e)) :: nil).

(** [json.Marshal] of a [*Entity]: a nil pointer is written as [null].
    No value of this type makes the encoder fail. *)
Definition Marshal_Entity (v : option Entity) : bytes * error :=
  (Some (json.print (match v with
                     | None => json.Null
                     | Some e => encode_Entity e
                     end)), None).

Definition Marshal_EntityValue (v : option EntityValue) : bytes * error :=
  (Some (json.print (match v with
                     | None => json.Null
                     | Some e => encode_EntityValue e
                     end)), None).

(** *** Unmarshal *)

Definition kind (v : json.Value) : string :=
  match v with
  | json.Null => "null"
  | json.Bool _ => "bool"
  | json.Number _ => "number"
  | json.Str _ => "string"
  | json.Array _ => "array"
  | json.Object _ => "object"
  end.

(** [foldName]: the key as it is compared when no field has exactly its
    name. ASCII letters go to upper case; of the runes beyond ASCII only
    U+017F and U+212A fold to an ASCII letter ([S] and [K]); the others
    fold among themselves, never to ASCII, and are left as they are. *)
Fixpoint foldName_loop (fuel : nat) (s : string) : string :=
  match fuel with
  | O => EmptyString
  | S fuel' =>
    match s with
    | EmptyString => EmptyString
    | String c r =>
      let b := byte_val c in
      if b <? utf8.RuneSelf then
        String (if (0x61 <=? b) && (b <=? 0x7A) then byte_of (b - 0x20) else c)
               (foldName_loop fuel' r)
      else
        let '(rn, size) := utf8.DecodeRuneInString s in
        (if rn =? 0x17F then "S"
         else if rn =? 0x212A then "K"
         else utf8.EncodeRune rn)
        ++ foldName_loop fuel' (drop_str size s)
    end
  end.

Definition foldName (s : string) : string :=
  foldName_loop (String.length s) s.

(** The field a key denotes: the one of that very name, or else the
    first whose name is the key up to case. *)
Definition find_field {F : Type} (fields : list (string * F)) (key : string)
  : option F :=
  match List.find (fun p => String.eqb (fst p) key) fields with
  | Some p => Some (snd p)
  | None =>
    match List.find (fun p => String.eqb (foldName (fst p)) (foldName key))
                    fields with
    | Some p => Some (snd p)
    | None => None
    end
  end.

Definition decode_bool (cur : bool) (v : json.Value) : bool * error :=
  match v with
  | json.Null => (cur, None)
  | json.Bool b => (b, None)
  | _ => (cur, Some (UnmarshalTypeError (kind v) "bool"))
  end.

Definition decode_string (cur : string) (v : json.Value) : string * error :=
  match v with
  | json.Null => (cur, None)
  | json.Str s => (s, None)
  | _ => (cur, Some (UnmarshalTypeError (kind v) "string"))
  end.

(** The elements of an array go, one by one, into the elements the
    slice already has, and into zero values beyond them. *)
Fixpoint decode_elems {A : Type} (zero : A)
         (dec : A -> json.Value -> A * error)
         (cur : list A) (vs : list json.Value) : list A * error :=
  match vs with
  | nil => (nil, None)
  | v :: vs' =>
    let '(old, cur') :=
      match cur with
      | nil => (zero, nil)
      | x :: r => (x, r)
      end in
    let '(x, e1) := dec old v in
    let '(xs, e2) := decode_elems zero dec cur' vs' in
    (x :: xs, saveError e1 e2)
  end.

(** [null] sets a slice to nil; an array replaces it. *)
Definition decode_slice {A : Type} (zero : A)
           (dec : A -> json.Value -> A * error) (type : string)
           (cur : slice A) (v : json.Value) : slice A * error :=
  match v with
  | json.Null => (None, None)
  | json.Array vs =>
    let '(xs, e) :=
      decode_elems zero dec (match cur with Some l => l | None => nil end) vs in
    (Some xs, e)
  | _ => (cur, Some (UnmarshalTypeError (kind v) type))
  end.

Definition decode_strings : slice string -> json.Value -> slice string * error :=
  decode_slice EmptyString decode_string "[]string".

Definition set_EntityValue (f : EntityValueField) (cur : EntityValue)
           (v : json.Value) : EntityValue * error :=
  match f with
  | F_Value =>
    let '(x, e) := decode_string (Value cur) v in
    ({| Value := x; Expressions := Expressions cur |}, e)
  | F_Expressions =>
    let '(x, e) := decode_strings (Expressions cur) v in
    ({| Value := Value cur; Expressions := x |}, e)
  end.

(** The members of an object, in the order of the text: a key that
    denotes no field is skipped, a later member for the same field
    decodes into what the earlier one left. *)
Fixpoint decode_members {T F : Type} (fields : list (string * F))
         (set : F -> T -> json.Value -> T * error)
         (cur : T) (ms : list (string * json.Value)) : T * error :=
  match ms with
  | nil => (cur, None)
  | (k, v) :: ms' =>
    match find_field fields k with
    | None => decode_members fields set cur ms'
    | Some f =>
      let '(cur', e1) := set f cur v in
      let '(res, e2) := decode_members fields set cur' ms' in
      (res, saveError e1 e2)
    end
  end.

Definition decode_EntityValue (cur : EntityValue) (v : json.Value)
  : EntityValue * error :=
  match v with
  | json.Null => (cur, None)
  | json.Object ms => decode_members EntityValue_fields set_EntityValue cur ms
  | _ => (cur, Some (UnmarshalTypeError (kind v) "wit.EntityValue"))
  end.

Definition decode_EntityValues
  : slice EntityValue -> json.Value -> slice EntityValue * error :=
  decode_slice zero_EntityValue decode_EntityValue "[]wit.EntityValue".

Definition set_Entity (f : EntityField) (cur : Entity) (v : json.Value)
  : Entity * error :=
  match f with
  | F_Builtin =>
    let '(x, e) := decode_bool (Builtin cur) v in
    ({| Builtin := x; Doc := Doc cur; Id := Id cur; Values := Values cur |}, e)
  | F_Doc =>
    let '(x, e) := decode_string (Doc cur) v in
    ({| Builtin := Builtin cur; Doc := x; Id := Id cur; Values := Values cur |}, e)
  | F_Id =>
    let '(x, e) := decode_string (Id cur) v in
    ({| Builtin := Builtin cur; Doc := Doc cur; Id := x; Values := Values cur |}, e)
  | F_Values =>
    let '(x, e) := decode_EntityValues (Values cur) v in
    ({| Builtin := Builtin cur; Doc := Doc cur; Id := Id cur; Values := x |}, e)
  end.

Definition decode_Entity (cur : Entity) (v : json.Value) : Entity * error :=
  match v with
  | json.Null => (cur, None)
  | json.Object ms => decode_members Entity_fields set_Entity cur ms
  | _ => (cur, Some (UnmarshalTypeError (kind v) "wit.Entity"))
  end.

(** [json.Unmarshal(data, v)]: the text is checked as a whole first; a
    text that is no JSON document leaves [v] as it is. A nil [data] is an
    empty text. *)
Definition Unmarshal {T : Type} (decode : T -> json.Value -> T * error)
           (data : bytes) (cur : T) : T * error :=
  match json.parse (match data with Some s => s | None => EmptyString end) with
  | None => (cur, Some (SyntaxError "invalid JSON input"))
  | Some v => decode cur v
  end.

Definition Unmarshal_Entity : bytes -> Entity -> Entity * error :=
  Unmarshal decode_Entity.

Definition Unmarshal_EntityValue
  : bytes -> EntityValue -> EntityValue * error :=
  Unmarshal decode_EntityValue.

(** The named type [Entities]: a slice of strings under its own name. *)
Definition decode_Entities : Entities -> json.Value -> Entities * error :=
  decode_slice EmptyString decode_string "wit.Entities".

Definition Unmarshal_Entities : bytes -> Entities -> Entities * error :=
  Unmarshal decode_Entities.

End jsonrt.

(** ** net/url *)

Module url.

Definition upperhex : string := "0123456789ABCDEF".

Definition isAlnum (c : ascii) : bool :=
  let b := byte_val c in
  ((0x41 <=? b) && (b <=? 0x5A)) || ((0x61 <=? b) && (b <=? 0x7A))
  || ((0x30 <=? b) && (b <=? 0x39)).

(** [shouldEscape(c, encodeQueryComponent)]: everything but the
    unreserved characters. *)
Definition shouldEscape (c : ascii) : bool :=
  negb (isAlnum c || str_mem c "-_.~").

Definition pct (c : ascii) : string :=
  let b := byte_val c in
  String "%" (String (str_nth (Z.to_nat (Z.shiftr b 4)) upperhex "0"%char)
    (String (str_nth (Z.to_nat (Z.land b 15)) upperhex "0"%char) EmptyString)).

(** [url.QueryEscape]: a space becomes [+], any other byte that should be
    escaped becomes [%XX]. *)
Fixpoint QueryEscape (s : string) : string :=
  match s with
  | EmptyString => EmptyString
  | String c r =>
    (if Ascii.eqb c " " then "+"
     else if shouldEscape c then pct c
     else String c EmptyString) ++ QueryEscape r
  end.

End url.

(** Percent-encoding as the specification words it (RFC 3986, 2.1): every
    byte outside the unreserved set, the space included, becomes [%XX]. *)
Fixpoint percent_encode (s : string) : string :=
  match s with
  | EmptyString => EmptyString
  | String c r =>
    (if url.shouldEscape c then url.pct c else String c EmptyString)
    ++ percent_encode r
  end.

(** ** The store, the transport and the monad of the client *)

Definition loc : Type := positive.

(** A pointer: nil, or the address of an object. *)
Definition ptr : Type := option loc.

(** The objects the caller holds, by type. *)
Record Heap : Type := mkHeap {
  entities : PositiveMap.t Entity;
  entityValues : PositiveMap.t EntityValue
}.

(** A call to one of the package helpers [get], [post], [put] and
    [delete], with its arguments. The helpers are declared in another file
    of the package: what they answer is a parameter of every operation. *)
Inductive Call : Type :=
| Get (url : string)
| Post (url : string) (data : bytes)
| Put (url : string) (data : bytes)
| Delete (resource : string) (id : string).

(** What a helper returns: the body, the status code and the error. *)
Definition Response : Type := (bytes * Z * error)%type.

Definition Transport : Type := Call -> Response.

(** Modelled from the spec: the helper [delete(resource, id)] is not in
    entities.go; the specification gives every verb one target URL, so the
    target of a DELETE is the resource followed by the id. *)
Definition target (c : Call) : string :=
  match c with
  | Get u => u
  | Post u _ => u
  | Put u _ => u
  | Delete resource id => resource ++ id
  end.

Record World : Type := mkWorld {
  heap : Heap;
  sent : list Call        (* the calls made so far, oldest first *)
}.

Inductive Outcome (A : Type) : Type :=
| Returned (a : A)
| Panicked (msg : string).

Arguments Returned {A} a.
Arguments Panicked {A} msg.

(** A computation of the client: it reads the store, calls the transport,
    and returns or panics. *)
Definition M (A : Type) : Type := Transport -> World -> Outcome A * World.

Definition ret {A : Type} (a : A) : M A := fun _ w => (Returned a, w).

Definition bind {A B : Type} (m : M A) (k : A -> M B) : M B :=
  fun t w =>
    match m t w with
    | (Returned a, w') => k a t w'
    | (Panicked msg, w') => (Panicked msg, w')
    end.

Definition panic {A : Type} (msg : string) : M A :=
  fun _ w => (Panicked msg, w).

Notation "x <- m ;; k" := (bind m (fun x => k))
  (at level 100, m at next level, right associativity).

Definition perform (c : Call) : M Response :=
  fun t w => (Returned (t c), {| heap := heap w; sent := sent w ++ c :: nil |}).

Definition nil_deref : string :=
  "invalid memory address or nil pointer dereference".

(** Reading through a pointer that may be nil, as [json.Marshal] does.
    An address without an object does not occur in Go; the model panics
    there. *)
Definition read {A : Type} (objs : Heap -> PositiveMap.t A) (p : ptr)
  : M (option A) :=
  fun _ w =>
    match p with
    | None => (Returned None, w)
    | Some l =>
      match PositiveMap.find l (objs (heap w)) with
      | Some x => (Returned (Some x), w)
      | None => (Panicked nil_deref, w)
      end
    end.

(** Selecting a field through a pointer: a nil pointer panics. *)
Definition deref {A : Type} (objs : Heap -> PositiveMap.t A) (p : ptr) : M A :=
  x <- read objs p ;;
  match x with
  | Some a => ret a
  | None => panic nil_deref
  end.

(** ** entities.go *)

Module wit.

(** Modelled from the spec: [type WitClient struct] is declared in
    another file of the package; the specification gives it the base URL
    set at construction, and entities.go reads its field [ApiBase] only. *)
Record WitClient : Type := mkWitClient { ApiBase : string }.

(** [json.Marshal] as the client sees it: bytes and an error. The
    operations are written against this signature; [encoding_json] is
    the encoder of the standard library. *)
Class Marshaler : Type := {
  Marshal_Entity : option Entity -> bytes * error;
  Marshal_EntityValue : option EntityValue -> bytes * error
}.

#[global] Instance encoding_json : Marshaler := {
  Marshal_Entity := jsonrt.Marshal_Entity;
  Marshal_EntityValue := jsonrt.Marshal_EntityValue
}.

Definition get (url : string) : M Response := perform (Get url).
Definition post (url : string) (data : bytes) : M Response :=
  perform (Post url data).
Definition put (url : string) (data : bytes) : M Response :=
  perform (Put url data).
Definition delete (resource id : string) : M Response :=
  perform (Delete resource id).

Section Operations.

Context {marshaler : Marshaler}.

Definition CreateEntity (client : WitClient) (entity : ptr)
  : M (bytes * error) :=
  v <- read entities entity ;;
  let '(data, err) := Marshal_Entity v in
  r <- post (ApiBase client ++ "/entities") data ;;
  let '(result, statusCode, err) := r in
  if negb (statusCode =? 200) then ret (None, err)
  else ret (result, None).

Definition CreateEntityValue (client : WitClient) (id : string)
           (entityValue : ptr) : M (option Entity * error) :=
  v <- read entityValues entityValue ;;
  let '(data, err) := Marshal_EntityValue v in
  r <- post (ApiBase client ++ "/entities/" ++ id ++ "/values") data ;;
  let '(result, statusCode, err) := r in
  if negb (statusCode =? 200) then ret (None, err)
  else
    let '(entity, err) := jsonrt.Unmarshal_Entity result zero_Entity in
    match err with
    | Some _ => ret (None, err)
    | None => ret (Some entity, None)
    end.

Definition CreateEntityValueExp (client : WitClient)
           (id value exp : string) : M (option Entity * error) :=
  r <- post (ApiBase client ++ "/entities/" ++ id ++ "/values/" ++ value
            ++ "/expressions") (Some exp) ;;
  let '(result, statusCode, err) := r in
  if negb (statusCode =? 200) then ret (None, err)
  else
    let '(entity, err) := jsonrt.Unmarshal_Entity result zero_Entity in
    match err with
    | Some _ => ret (None, err)
    | None => ret (Some entity, None)
    end.

Definition DeleteEntity (client : WitClient) (id : string)
  : M (bytes * error) :=
  r <- delete (ApiBase client ++ "/entities/") id ;;
  let '(result, statusCode, err) := r in
  if negb (statusCode =? 200) then ret (None, err)
  else ret (result, None).

Definition DeleteEntityValue (client : WitClient) (id value : string)
  : M (bytes * error) :=
  r <- delete (ApiBase client ++ "/entities/") (id ++ "/values/" ++ value) ;;
  let '(result, statusCode, err) := r in
  if negb (statusCode =? 200) then ret (None, err)
  else ret (result, None).

Definition DeleteEntityValueExp (client : WitClient)
           (id value exp : string) : M (bytes * error) :=
  let data := id ++ "/values/" ++ value ++ "/expression/"
              ++ url.QueryEscape exp in
  r <- delete (ApiBase client ++ "/entities/") data ;;
  let '(result, statusCode, err) := r in
  if negb (statusCode =? 200) then ret (None, err)
  else ret (result, None).

(** [parseEntities]: the pointer is nil on an error. *)
Definition parseEntities (data : bytes) : option Entities * error :=
  let '(entities, err) := jsonrt.Unmarshal_Entities data (Some nil) in
  match err with
  | Some _ => (None, err)
  | None => (Some entities, None)
  end.

Definition parseEntity (data : bytes) : option Entity * error :=
  let '(entity, err) := jsonrt.Unmarshal_Entity data zero_Entity in
  match err with
  | Some _ => (None, err)
  | None => (Some entity, None)
  end.

Definition parseEntityValue (data : bytes) : option EntityValue * error :=
  let '(entityValue, err) :=
    jsonrt.Unmarshal_EntityValue data zero_EntityValue in
  match err with
  | Some _ => (None, err)
  | None => (Some entityValue, None)
  end.

Definition Entities (client : WitClient) : M (option Entities * error) :=
  r <- get (ApiBase client ++ "/entities") ;;
  let '(result, _, err) := r in
  match err with
  | Some _ => ret (None, err)
  | None =>
    let '(entities, _) := parseEntities result in
    ret (entities, None)
  end.

Definition Entity (client : WitClient) (id : string)
  : M (option Entity * error) :=
  r <- get (ApiBase client ++ "/entities/" ++ id) ;;
  let '(result, _, err) := r in
  match err with
  | Some _ => ret (None, err)
  | None =>
    let '(entity, _) := parseEntity result in
    ret (entity, None)
  end.

Definition UpdateEntity (client : WitClient) (entity : ptr)
  : M (bytes * error) :=
  v <- read entities entity ;;
  let '(data, err) := Marshal_Entity v in
  e <- deref entities entity ;;
  r <- put (ApiBase client ++ "/entities/" ++ Id e) data ;;
  let '(result, statusCode, err) := r in
  if negb (statusCode =? 200) then ret (None, err)
  else ret (result, None).

End Operations.

End wit.

(** Running an operation from a store with nothing sent yet. *)
Definition run {A : Type} (m : M A) (t : Transport) (h : Heap)
  : Outcome A * World :=
  m t {| heap := h; sent := nil |}.

Definition empty_heap : Heap :=
  {| entities := PositiveMap.empty Entity;
     entityValues := PositiveMap.empty EntityValue |}.

(** ** Values used in the statements *)

(** A pointer the caller can hold: nil, or the address of a stored
    object. *)
Definition stored {A : Type} (objs : Heap -> PositiveMap.t A) (h : Heap) (p : ptr)
  : bool :=
  match p with
  | None => true
  | Some l => match PositiveMap.find l (objs h) with Some _ => true | None => false end
  end.

(** The object behind a pointer; none behind nil. *)
Definition pointee {A : Type} (objs : Heap -> PositiveMap.t A) (h : Heap)
           (p : ptr) : option A :=
  match p with
  | Some l => PositiveMap.find l (objs h)
  | None => None
  end.

(** A transport that gives one answer to every call. *)
Definition always (r : Response) : Transport := fun _ => r.

Definition api : wit.WitClient := wit.mkWitClient "https://api.wit.ai".

(** A JSON string literal without escapes. *)
Definition quoted (s : string) : string :=
  String dquote (s ++ String dquote EmptyString).

(** The text [["wit$temperature","favorite_city"]]. *)
Definition two_entities : string :=
  "[" ++ quoted "wit$temperature" ++ "," ++ quoted "favorite_city" ++ "]".

(** The document of the entity favorite_city: an empty doc, builtin
    false, and the value Paris with the expression City of Light, under the
    lower-case key [values]. *)
Definition favorite_city_text : string :=
  "{" ++ quoted "id" ++ ":" ++ quoted "favorite_city" ++ ","
  ++ quoted "doc" ++ ":" ++ quoted EmptyString ++ ","
  ++ quoted "builtin" ++ ":false,"
  ++ quoted "values" ++ ":[{" ++ quoted "value" ++ ":" ++ quoted "Paris" ++ ","
  ++ quoted "expressions" ++ ":[" ++ quoted "City of Light" ++ "]}]}".

Definition favorite_city : Entity :=
  {| Builtin := false; Doc := EmptyString; Id := "favorite_city";
     Values := Some ({| Value := "Paris";
                        Expressions := Some ("City of Light" :: nil) |} :: nil) |}.

(** The text [{"error":"not found"}], as a service may send it with a
    404. *)
Definition not_found_text : string :=
  "{" ++ quoted "error" ++ ":" ++ quoted "not found" ++ "}".

Definition one_entity_heap (e : Entity) : Heap :=
  {| entities := PositiveMap.add 1%positive e (PositiveMap.empty Entity);
     entityValues := PositiveMap.empty EntityValue |}.

Definition one_value_heap (v : EntityValue) : Heap :=
  {| entities := PositiveMap.empty Entity;
     entityValues := PositiveMap.add 1%positive v (PositiveMap.empty EntityValue) |}.

(** The operation returns, leaves the store as it is, and has made the
    call [c] and no other. *)
Definition issues {A : Type} (m : M A) (t : Transport) (h : Heap) (c : Call)
  : Prop :=
  exists r, run m t h = (Returned r, {| heap := h; sent := c :: nil |}).

(** ** Predicates of the statements *)

(** Every byte of [s] satisfies [p]. *)
Fixpoint str_forallb (p : ascii -> bool) (s : string) : bool :=
  match s with
  | EmptyString => true
  | String c r => p c && str_forallb p r
  end.

(** A document the encoder can have written for a value of entities.go
    whose strings are valid UTF-8: no number, and only valid strings. *)
Fixpoint printable (v : json.Value) : bool :=
  match v with
  | json.Null => true
  | json.Bool _ => true
  | json.Number _ => false
  | json.Str s => utf8.ValidString s
  | json.Array vs => forallb printable vs
  | json.Object ms =>
    forallb (fun kv => utf8.ValidString (fst kv) && printable (snd kv)) ms
  end.

(** How deep the arrays and objects of a document nest. *)
Fixpoint nesting (v : json.Value) : Z :=
  match v with
  | json.Array vs =>
    1 + List.fold_right (fun x a => Z.max (nesting x) a) 0 vs
  | json.Object ms =>
    1 + List.fold_right (fun kv a => Z.max (nesting (snd kv)) a) 0 ms
  | _ => 0
  end.

(** The characters a document the encoder writes can start with. *)
Definition value_head (c : ascii) : bool := str_mem c (String dquote "ntf[{").

Definition valid_strings (l : slice string) : bool :=
  match l with
  | None => true
  | Some xs => forallb utf8.ValidString xs
  end.

Definition valid_EntityValue (v : EntityValue) : bool :=
  utf8.ValidString (Value v) && valid_strings (Expressions v).

(** An entity all of whose strings are valid UTF-8. *)
Definition valid_Entity (e : Entity) : bool :=
  utf8.ValidString (Doc e) && utf8.ValidString (Id e)
  && match Values e with
     | None => true
     | Some vs => forallb valid_EntityValue vs
     end.

(** An entity whose id is the single byte 0xFF, which is no UTF-8. *)
Definition latin1_entity : Entity :=
  {| Builtin := false; Doc := EmptyString;
     Id := String (byte_of 0xFF) EmptyString;
     Values := Some ({| Value := "Paris";
                        Expressions := Some ("City of Light" :: nil) |} :: nil) |}.

(** The document of an entity as the service writes it: the value list
    under the lower-case key [values]. *)
Definition wire_Entity (e : Entity) : json.Value :=
  json.Object
    (("builtin", json.Bool (Builtin e))
     :: ("doc", json.Str (Doc e))
     :: ("id", json.Str (Id e))
     :: ("values", jsonrt.encode_EntityValues (Values e)) :: nil).

(** A document with one more member in front, when it is an object. *)
Definition with_member (k : string) (v doc : json.Value) : json.Value :=
  match doc with
  | json.Object ms => json.Object ((k, v) :: ms)
  | _ => doc
  end.

(** A result and an error are not returned together. *)
Definition result_or_error {A : Type} (o : Outcome (option A * error)) : Prop :=
  match o with
  | Returned (Some _, Some _) => False
  | _ => True
  end.

(** A byte [url.QueryEscape] can write: an unreserved character, the [+]
    of a space, or the [%] of an escape (its two digits are unreserved). *)
Definition escaped_byte (c : ascii) : bool :=
  url.isAlnum c || str_mem c "-_.~+%".

Definition unreserved (c : ascii) : bool := negb (url.shouldEscape c).

(** A byte from 0x20 on that is none of [&], [<], [>]. The bytes below
    0x20 are the control characters of ASCII, the line feed and the tab
    among them; DEL (0x7F) and every byte from 0x80 on are admitted. *)
Definition plain_byte (c : ascii) : bool :=
  let b := byte_val c in
  (0x20 <=? b) && negb (b =? 0x26) && negb (b =? 0x3C) && negb (b =? 0x3E).

(** * Properties *)

(** ** Strings *)

Lemma append_nil_r (s : string) : s ++ EmptyString = s.
Proof. induction s as [|c s IH]; simpl; [reflexivity | now rewrite IH]. Qed.

Lemma append_assoc (a b c : string) : (a ++ b) ++ c = a ++ (b ++ c).
Proof. induction a as [|x a IH]; simpl; [reflexivity | now rewrite IH]. Qed.

Lemma length_append (a b : string) :
  String.length (a ++ b) = (String.length a + String.length b)%nat.
Proof. induction a as [|x a IH]; simpl; [reflexivity | now rewrite IH]. Qed.

(** ** Bytes and bit fields *)

Lemma byte_val_range (c : ascii) : 0 <= byte_val c < 256.
Proof.
  unfold byte_val. pose proof (N_ascii_bounded c). lia.
Qed.

Lemma byte_of_val (c : ascii) : byte_of (byte_val c) = c.
Proof.
  unfold byte_of, byte_val. rewrite N2Z.id. apply ascii_N_embedding.
Qed.

Lemma byte_val_of (z : Z) : 0 <= z < 256 -> byte_val (byte_of z) = z.
Proof.
  intros H. unfold byte_of, byte_val.
  rewrite N_ascii_embedding by lia. lia.
Qed.

Lemma byte_val_inj (c d : ascii) : byte_val c = byte_val d -> c = d.
Proof.
  intros H. rewrite <- (byte_of_val c), <- (byte_of_val d). now rewrite H.
Qed.

(** A field shifted left and a smaller field below it do not overlap. *)
Lemma lor_shiftl_add (a b k : Z) :
  0 <= k -> 0 <= b < 2 ^ k -> Z.lor (Z.shiftl a k) b = a * 2 ^ k + b.
Proof.
  intros Hk Hb. rewrite <- Z.shiftl_mul_pow2 by assumption.
  assert (H0 : Z.land (Z.shiftl a k) b = 0).
  { rewrite <- (Z.mod_small b (2 ^ k)) by assumption.
  rewrite <- Z.land_ones by assumption.
    rewrite (Z.land_comm b), Z.land_assoc.
    rewrite (Z.land_ones (Z.shiftl a k)) by assumption.
  rewrite Z.shiftl_mul_pow2 by assumption.
  rewrite Z.mod_mul by lia. apply Z.land_0_l. }
  rewrite <- (Z.lxor_lor _ _ H0). symmetry. now apply Z.add_nocarry_lxor.
Qed.

Lemma land_low (a k : Z) : 0 <= k -> Z.land a (2 ^ k - 1) = a mod 2 ^ k.
Proof.
  intros Hk. rewrite <- Z.land_ones by assumption.
  now rewrite Z.ones_equiv, Z.sub_1_r.
Qed.

Lemma lor_high (hi a k : Z) :
  0 <= k -> 0 <= a < 2 ^ k -> Z.lor (hi * 2 ^ k) a = hi * 2 ^ k + a.
Proof.
  intros Hk Ha. rewrite <- (lor_shiftl_add hi a k) by assumption.
  now rewrite Z.shiftl_mul_pow2.
Qed.

(** ** UTF-8: the rune of a sequence, and back *)

Lemma rune2 (p0 b1 : Z) :
  0xC0 <= p0 <= 0xDF -> 0x80 <= b1 <= 0xBF ->
  Z.lor (Z.shiftl (Z.land p0 utf8.mask2) 6) (Z.land b1 utf8.maskx)
  = (p0 - 0xC0) * 64 + (b1 - 0x80).
Proof.
  intros H0 H1. unfold utf8.mask2, utf8.maskx.
  change 0x1F with (2 ^ 5 - 1). change 0x3F with (2 ^ 6 - 1).
  rewrite !land_low by lia.
  rewrite lor_shiftl_add by (try apply Z.mod_pos_bound; lia).
  change (2 ^ 5) with 32. change (2 ^ 6) with 64.
  Z.div_mod_to_equations. lia.
Qed.

Lemma rune3 (p0 b1 b2 : Z) :
  0xE0 <= p0 <= 0xEF -> 0x80 <= b1 <= 0xBF -> 0x80 <= b2 <= 0xBF ->
  Z.lor (Z.lor (Z.shiftl (Z.land p0 utf8.mask3) 12)
               (Z.shiftl (Z.land b1 utf8.maskx) 6))
        (Z.land b2 utf8.maskx)
  = (p0 - 0xE0) * 4096 + (b1 - 0x80) * 64 + (b2 - 0x80).
Proof.
  intros H0 H1 H2. unfold utf8.mask3, utf8.maskx.
  change 0x0F with (2 ^ 4 - 1). change 0x3F with (2 ^ 6 - 1).
  rewrite !land_low by lia.
  assert (E0 : p0 mod 2 ^ 4 = p0 - 0xE0)
    by (change (2 ^ 4) with 16; Z.div_mod_to_equations; lia).
  assert (E1 : b1 mod 2 ^ 6 = b1 - 0x80)
    by (change (2 ^ 6) with 64; Z.div_mod_to_equations; lia).
  assert (E2 : b2 mod 2 ^ 6 = b2 - 0x80)
    by (change (2 ^ 6) with 64; Z.div_mod_to_equations; lia).
  rewrite E0, E1, E2.
  rewrite (Z.shiftl_mul_pow2 (b1 - 0x80) 6) by lia.
  rewrite lor_shiftl_add by (change (2 ^ 6) with 64; change (2 ^ 12) with 4096; lia).
  replace ((p0 - 0xE0) * 2 ^ 12 + (b1 - 0x80) * 2 ^ 6)
    with (((p0 - 0xE0) * 64 + (b1 - 0x80)) * 2 ^ 6)
    by (change (2 ^ 6) with 64; change (2 ^ 12) with 4096; lia).
  rewrite lor_high by (change (2 ^ 6) with 64; lia).
  change (2 ^ 6) with 64. lia.
Qed.

Lemma rune4 (p0 b1 b2 b3 : Z) :
  0xF0 <= p0 <= 0xF7 -> 0x80 <= b1 <= 0xBF -> 0x80 <= b2 <= 0xBF ->
  0x80 <= b3 <= 0xBF ->
  Z.lor (Z.lor (Z.lor (Z.shiftl (Z.land p0 utf8.mask4) 18)
                      (Z.shiftl (Z.land b1 utf8.maskx) 12))
               (Z.shiftl (Z.land b2 utf8.maskx) 6))
        (Z.land b3 utf8.maskx)
  = (p0 - 0xF0) * 262144 + (b1 - 0x80) * 4096 + (b2 - 0x80) * 64 + (b3 - 0x80).
Proof.
  intros H0 H1 H2 H3. unfold utf8.mask4, utf8.maskx.
  change 0x07 with (2 ^ 3 - 1). change 0x3F with (2 ^ 6 - 1).
  rewrite !land_low by lia.
  assert (E0 : p0 mod 2 ^ 3 = p0 - 0xF0)
    by (change (2 ^ 3) with 8; Z.div_mod_to_equations; lia).
  assert (E1 : b1 mod 2 ^ 6 = b1 - 0x80)
    by (change (2 ^ 6) with 64; Z.div_mod_to_equations; lia).
  assert (E2 : b2 mod 2 ^ 6 = b2 - 0x80)
    by (change (2 ^ 6) with 64; Z.div_mod_to_equations; lia).
  assert (E3 : b3 mod 2 ^ 6 = b3 - 0x80)
    by (change (2 ^ 6) with 64; Z.div_mod_to_equations; lia).
  rewrite E0, E1, E2, E3.
  rewrite (Z.shiftl_mul_pow2 (b1 - 0x80) 12) by lia.
  rewrite (Z.shiftl_mul_pow2 (b2 - 0x80) 6) by lia.
  rewrite lor_shiftl_add
    by (change (2 ^ 12) with 4096; change (2 ^ 18) with 262144; lia).
  replace ((p0 - 0xF0) * 2 ^ 18 + (b1 - 0x80) * 2 ^ 12)
    with (((p0 - 0xF0) * 64 + (b1 - 0x80)) * 2 ^ 12)
    by (change (2 ^ 12) with 4096; change (2 ^ 18) with 262144; lia).
  rewrite lor_high by (change (2 ^ 6) with 64; change (2 ^ 12) with 4096; lia).
  replace (((p0 - 0xF0) * 64 + (b1 - 0x80)) * 2 ^ 12 + (b2 - 0x80) * 2 ^ 6)
    with ((((p0 - 0xF0) * 64 + (b1 - 0x80)) * 64 + (b2 - 0x80)) * 2 ^ 6)
    by (change (2 ^ 6) with 64; change (2 ^ 12) with 4096; lia).
  rewrite lor_high by (change (2 ^ 6) with 64; lia).
  change (2 ^ 6) with 64. lia.
Qed.

(** The bytes [EncodeRune] writes, by the number of bytes. *)
Lemma lor_C0 (x : Z) : 0 <= x < 32 -> Z.lor 0xC0 x = 0xC0 + x.
Proof. intros H. change 0xC0 with (6 * 2 ^ 5). apply lor_high; simpl; lia. Qed.

Lemma lor_E0 (x : Z) : 0 <= x < 16 -> Z.lor 0xE0 x = 0xE0 + x.
Proof. intros H. change 0xE0 with (14 * 2 ^ 4). apply lor_high; simpl; lia. Qed.

Lemma lor_F0 (x : Z) : 0 <= x < 8 -> Z.lor 0xF0 x = 0xF0 + x.
Proof. intros H. change 0xF0 with (30 * 2 ^ 3). apply lor_high; simpl; lia. Qed.

Lemma lor_80 (x : Z) : 0 <= x < 64 -> Z.lor 0x80 x = 0x80 + x.
Proof. intros H. change 0x80 with (2 * 2 ^ 6). apply lor_high; simpl; lia. Qed.

Lemma cont_field (n k : Z) :
  0 <= n -> 0 <= k ->
  Z.lor 0x80 (Z.land (Z.shiftr n k) utf8.maskx) = 0x80 + (n / 2 ^ k) mod 64.
Proof.
  intros Hn Hk. unfold utf8.maskx. change 0x3F with (2 ^ 6 - 1).
  rewrite land_low by lia. rewrite Z.shiftr_div_pow2 by assumption.
  change (2 ^ 6) with 64. apply lor_80. apply Z.mod_pos_bound. lia.
Qed.

Lemma cont_field0 (n : Z) :
  0 <= n -> Z.lor 0x80 (Z.land n utf8.maskx) = 0x80 + n mod 64.
Proof.
  intros Hn. unfold utf8.maskx. change 0x3F with (2 ^ 6 - 1).
  rewrite land_low by lia.
  change (2 ^ 6) with 64. apply lor_80. apply Z.mod_pos_bound. lia.
Qed.

Lemma EncodeRune2 (x y : Z) :
  2 <= x < 32 -> 0 <= y < 64 ->
  utf8.EncodeRune (x * 64 + y)
  = String (byte_of (0xC0 + x)) (String (byte_of (0x80 + y)) EmptyString).
Proof.
  intros Hx Hy. unfold utf8.EncodeRune.
  destruct (Z.leb_spec (x * 64 + y) 0x7F); [lia|].
  destruct (Z.leb_spec (x * 64 + y) 0x7FF); [|lia].
  rewrite cont_field0 by lia. rewrite Z.shiftr_div_pow2 by lia.
  change (2 ^ 6) with 64.
  replace ((x * 64 + y) / 64) with x by (Z.div_mod_to_equations; lia).
  replace ((x * 64 + y) mod 64) with y by (Z.div_mod_to_equations; lia).
  now rewrite lor_C0 by lia.
Qed.

Lemma EncodeRune3 (x y z : Z) :
  0 <= x < 16 -> 0 <= y < 64 -> 0 <= z < 64 ->
  0x800 <= x * 4096 + y * 64 + z ->
  ~ (0xD800 <= x * 4096 + y * 64 + z <= 0xDFFF) ->
  utf8.EncodeRune (x * 4096 + y * 64 + z)
  = String (byte_of (0xE0 + x))
      (String (byte_of (0x80 + y)) (String (byte_of (0x80 + z)) EmptyString)).
Proof.
  intros Hx Hy Hz Hlo Hsur. unfold utf8.EncodeRune.
  remember (x * 4096 + y * 64 + z) as n eqn:En.
  destruct (Z.leb_spec n 0x7F); [lia|].
  destruct (Z.leb_spec n 0x7FF); [lia|].
  unfold utf8.MaxRune, utf8.surrogateMin, utf8.surrogateMax.
  destruct (Z.ltb_spec 0x10FFFF n); [lia|].
  destruct (Z.leb_spec 0xD800 n); destruct (Z.leb_spec n 0xDFFF);
    cbn [orb andb]; try lia;
    (destruct (Z.leb_spec n 0xFFFF); [|lia]);
    unfold utf8.encode3;
    rewrite cont_field by lia; rewrite cont_field0 by lia;
    rewrite Z.shiftr_div_pow2 by lia;
    change (2 ^ 6) with 64; change (2 ^ 12) with 4096;
    replace (n / 4096) with x by (subst n; Z.div_mod_to_equations; lia);
    replace ((n / 64) mod 64) with y by (subst n; Z.div_mod_to_equations; lia);
    replace (n mod 64) with z by (subst n; Z.div_mod_to_equations; lia);
    now rewrite lor_E0 by lia.
Qed.

Lemma EncodeRune4 (x y z u : Z) :
  0 <= x < 8 -> 0 <= y < 64 -> 0 <= z < 64 -> 0 <= u < 64 ->
  0x10000 <= x * 262144 + y * 4096 + z * 64 + u <= 0x10FFFF ->
  utf8.EncodeRune (x * 262144 + y * 4096 + z * 64 + u)
  = String (byte_of (0xF0 + x))
      (String (byte_of (0x80 + y))
        (String (byte_of (0x80 + z)) (String (byte_of (0x80 + u)) EmptyString))).
Proof.
  intros Hx Hy Hz Hu Hr. unfold utf8.EncodeRune.
  remember (x * 262144 + y * 4096 + z * 64 + u) as n eqn:En.
  destruct (Z.leb_spec n 0x7F); [lia|].
  destruct (Z.leb_spec n 0x7FF); [lia|].
  unfold utf8.MaxRune, utf8.surrogateMin, utf8.surrogateMax.
  destruct (Z.ltb_spec 0x10FFFF n); [lia|].
  destruct (Z.leb_spec 0xD800 n); destruct (Z.leb_spec n 0xDFFF);
    cbn [orb andb]; try lia.
  destruct (Z.leb_spec n 0xFFFF); [lia|].
  rewrite !cont_field by lia. rewrite cont_field0 by lia.
  rewrite Z.shiftr_div_pow2 by lia.
  change (2 ^ 6) with 64; change (2 ^ 12) with 4096;
    change (2 ^ 18) with 262144.
  replace (n / 262144) with x by (subst n; Z.div_mod_to_equations; lia).
  replace ((n / 4096) mod 64) with y by (subst n; Z.div_mod_to_equations; lia).
  replace ((n / 64) mod 64) with z by (subst n; Z.div_mod_to_equations; lia).
  replace (n mod 64) with u by (subst n; Z.div_mod_to_equations; lia).
  now rewrite lor_F0 by lia.
Qed.

Ltac zbool :=
  repeat match goal with
  | H : (_ && _)%bool = true |- _ => apply andb_prop in H; destruct H
  | H : (_ || _)%bool = false |- _ => apply orb_false_elim in H; destruct H
  | H : negb _ = false |- _ => apply negb_false_iff in H
  | H : negb _ = true |- _ => apply negb_true_iff in H
  | H : (_ <=? _) = true |- _ => apply Z.leb_le in H
  | H : (_ <=? _) = false |- _ => apply Z.leb_gt in H
  | H : (_ <? _) = true |- _ => apply Z.ltb_lt in H
  | H : (_ <? _) = false |- _ => apply Z.ltb_ge in H
  | H : (_ =? _) = true |- _ => apply Z.eqb_eq in H
  | H : (_ =? _) = false |- _ => apply Z.eqb_neq in H
  end.

(** What the table [first] says of a leading byte. *)
Lemma first_spec (p0 : Z) (sz : nat) (lo hi : Z) :
  utf8.first p0 = Some (sz, lo, hi) ->
  (sz = 2%nat /\ 0xC2 <= p0 <= 0xDF /\ lo = 0x80 /\ hi = 0xBF)
  \/ (sz = 3%nat /\ hi <= 0xBF /\ 0x80 <= lo
      /\ ((p0 = 0xE0 /\ lo = 0xA0 /\ hi = 0xBF)
          \/ (0xE1 <= p0 <= 0xEF /\ p0 <> 0xED /\ lo = 0x80 /\ hi = 0xBF)
          \/ (p0 = 0xED /\ lo = 0x80 /\ hi = 0x9F)))
  \/ (sz = 4%nat /\ hi <= 0xBF /\ 0x80 <= lo
      /\ ((p0 = 0xF0 /\ lo = 0x90 /\ hi = 0xBF)
          \/ (0xF1 <= p0 <= 0xF3 /\ lo = 0x80 /\ hi = 0xBF)
          \/ (p0 = 0xF4 /\ lo = 0x80 /\ hi = 0x8F))).
Proof.
  unfold utf8.first, utf8.locb, utf8.hicb.
  repeat match goal with
         | |- context [if ?b then _ else _] => destruct b eqn:?
         end;
    intros H; inversion H; subst; clear H; zbool; lia.
Qed.

(** The decoder looks at the bytes of the sequence only. *)
Lemma DecodeRune_prefix (s X : string) (n : Z) (size : nat) :
  s <> EmptyString ->
  utf8.DecodeRuneInString s = (n, size) ->
  ~ (n = utf8.RuneError /\ size = 1%nat) ->
  utf8.DecodeRuneInString (take_str size s ++ X) = (n, size).
Proof.
  intros Hs H Hv. destruct s as [|c0 s1]; [congruence|]. clear Hs.
  unfold utf8.DecodeRuneInString in H.
  destruct (byte_val c0 <? utf8.RuneSelf) eqn:E0.
  { apply pair_equal_spec in H; destruct H as [<- <-].
    cbn [take_str String.append]. unfold utf8.DecodeRuneInString.
    now rewrite E0. }
  destruct (utf8.first (byte_val c0)) as [[[sz lo] hi]|] eqn:Ef;
    [|inversion H; subst; tauto].
  destruct s1 as [|c1 s2]; [inversion H; subst; tauto|].
  destruct ((byte_val c1 <? lo) || (hi <? byte_val c1))%bool eqn:E1;
    [inversion H; subst; tauto|].
  destruct (sz <=? 2)%nat eqn:E2.
  { apply pair_equal_spec in H; destruct H as [<- <-].
    cbn [take_str String.append]. unfold utf8.DecodeRuneInString.
    now rewrite E0, Ef, E1, E2. }
  destruct s2 as [|c2 s3]; [inversion H; subst; tauto|].
  destruct (negb (utf8.is_cont (byte_val c2))) eqn:E3;
    [inversion H; subst; tauto|].
  destruct (sz <=? 3)%nat eqn:E4.
  { apply pair_equal_spec in H; destruct H as [<- <-].
    cbn [take_str String.append]. unfold utf8.DecodeRuneInString.
    now rewrite E0, Ef, E1, E2, E3, E4. }
  destruct s3 as [|c3 s4]; [inversion H; subst; tauto|].
  destruct (negb (utf8.is_cont (byte_val c3))) eqn:E5;
    [inversion H; subst; tauto|].
  apply pair_equal_spec in H; destruct H as [<- <-].
  cbn [take_str String.append]. unfold utf8.DecodeRuneInString.
  now rewrite E0, Ef, E1, E2, E3, E4, E5.
Qed.

(** A well-formed sequence of two bytes or more: it is as long as the
    decoder says, its bytes are all beyond ASCII, and it is what
    [EncodeRune] writes for its rune. *)
Lemma DecodeRune_multibyte (c0 : ascii) (r : string) (n : Z) (size : nat) :
  utf8.RuneSelf <= byte_val c0 ->
  utf8.DecodeRuneInString (String c0 r) = (n, size) ->
  ~ (n = utf8.RuneError /\ size = 1%nat) ->
  String.length (take_str size (String c0 r)) = size
  /\ (2 <= size)%nat
  /\ str_forallb (fun c => utf8.RuneSelf <=? byte_val c)
                 (take_str size (String c0 r)) = true
  /\ utf8.EncodeRune n = take_str size (String c0 r)
  /\ utf8.RuneSelf <= n.
Proof.
  intros H0 H Hv. unfold utf8.DecodeRuneInString in H.
  pose proof (byte_val_range c0) as R0.
  destruct (byte_val c0 <? utf8.RuneSelf) eqn:E0; [zbool; lia|].
  destruct (utf8.first (byte_val c0)) as [[[sz lo] hi]|] eqn:Ef;
    [|inversion H; subst; tauto].
  apply first_spec in Ef.
  destruct r as [|c1 s2]; [inversion H; subst; tauto|].
  pose proof (byte_val_range c1) as R1.
  destruct ((byte_val c1 <? lo) || (hi <? byte_val c1))%bool eqn:E1;
    [inversion H; subst; tauto|].
  zbool. unfold utf8.RuneSelf in *.
  destruct (sz <=? 2)%nat eqn:E2.
  { apply Nat.leb_le in E2.
    destruct Ef as [(Hsz & Hp & -> & ->) | [(Hsz & _) | (Hsz & _)]]; try lia.
    apply pair_equal_spec in H; destruct H as [<- <-].
    rewrite rune2 by lia. simpl take_str. simpl String.length.
    cbn [str_forallb].
    rewrite EncodeRune2 by lia.
    replace (0xC0 + (byte_val c0 - 0xC0)) with (byte_val c0) by lia.
    replace (0x80 + (byte_val c1 - 0x80)) with (byte_val c1) by lia.
    rewrite !byte_of_val.
    repeat split; lia. }
  apply Nat.leb_gt in E2.
  destruct s2 as [|c2 s3]; [inversion H; subst; tauto|].
  pose proof (byte_val_range c2) as R2.
  destruct (negb (utf8.is_cont (byte_val c2))) eqn:E3;
    [inversion H; subst; tauto|].
  unfold utf8.is_cont, utf8.locb, utf8.hicb in E3. zbool.
  destruct (sz <=? 3)%nat eqn:E4.
  { apply Nat.leb_le in E4.
    destruct Ef as [(Hsz & _) | [(Hsz & Hhi & Hlo & Hc) | (Hsz & _)]]; try lia.
    apply pair_equal_spec in H; destruct H as [<- <-].
    rewrite rune3 by lia. simpl take_str. simpl String.length.
    cbn [str_forallb].
    rewrite EncodeRune3 by lia.
    replace (0xE0 + (byte_val c0 - 0xE0)) with (byte_val c0) by lia.
    replace (0x80 + (byte_val c1 - 0x80)) with (byte_val c1) by lia.
    replace (0x80 + (byte_val c2 - 0x80)) with (byte_val c2) by lia.
    rewrite !byte_of_val.
    repeat split; lia. }
  apply Nat.leb_gt in E4.
  destruct s3 as [|c3 s4]; [inversion H; subst; tauto|].
  pose proof (byte_val_range c3) as R3.
  destruct (negb (utf8.is_cont (byte_val c3))) eqn:E5;
    [inversion H; subst; tauto|].
  unfold utf8.is_cont, utf8.locb, utf8.hicb in E5. zbool.
  destruct Ef as [(Hsz & _) | [(Hsz & _) | (Hsz & Hhi & Hlo & Hc)]]; try lia.
  apply pair_equal_spec in H; destruct H as [<- <-].
  rewrite rune4 by lia. simpl take_str. simpl String.length.
  cbn [str_forallb].
  rewrite EncodeRune4 by lia.
  replace (0xF0 + (byte_val c0 - 0xF0)) with (byte_val c0) by lia.
  replace (0x80 + (byte_val c1 - 0x80)) with (byte_val c1) by lia.
  replace (0x80 + (byte_val c2 - 0x80)) with (byte_val c2) by lia.
  replace (0x80 + (byte_val c3 - 0x80)) with (byte_val c3) by lia.
  rewrite !byte_of_val.
  repeat split; lia.
Qed.

(** ** Slices of strings *)

Lemma length_drop_str (n : nat) (s : string) :
  String.length (drop_str n s) = (String.length s - n)%nat.
Proof.
  revert s. induction n as [|n IH]; intros [|c s]; simpl; try reflexivity.
  apply IH.
Qed.

Lemma take_drop_str (n : nat) (s : string) : take_str n s ++ drop_str n s = s.
Proof.
  revert s. induction n as [|n IH]; intros [|c s]; simpl; try reflexivity.
  now rewrite IH.
Qed.

Lemma drop_str_app (a b : string) : drop_str (String.length a) (a ++ b) = b.
Proof. induction a as [|c a IH]; simpl; [reflexivity | exact IH]. Qed.

Lemma take_str_app (a b : string) : take_str (String.length a) (a ++ b) = a.
Proof. induction a as [|c a IH]; simpl; [reflexivity | now rewrite IH]. Qed.

Lemma append_cons (c : ascii) (a b : string) :
  String c a ++ b = String c (a ++ b).
Proof. reflexivity. Qed.

(** The decoder consumes one byte at least, of a string that has one. *)
Lemma DecodeRune_size (c : ascii) (r : string) :
  (1 <= snd (utf8.DecodeRuneInString (String c r)))%nat.
Proof.
  unfold utf8.DecodeRuneInString.
  repeat match goal with
         | |- context [if ?b then _ else _] => destruct b
         | |- context [match ?x with _ => _ end] => destruct x
         end; simpl; lia.
Qed.

(** ** Fuel *)

Lemma appendString_loop_fuel (f : nat) (s : string) :
  (String.length s <= f)%nat ->
  json.appendString_loop f s = json.appendString_loop (String.length s) s.
Proof.
  revert s. induction f as [f IH] using lt_wf_ind. intros s Hf.
  destruct s as [|c r]; [destruct f; reflexivity|].
  destruct f as [|f]; [simpl in Hf; lia|].
  simpl String.length. cbn [json.appendString_loop].
  pose proof (DecodeRune_size c r) as Hsz.
  destruct (utf8.DecodeRuneInString (String c r)) as [n size]. simpl in Hsz.
  simpl in Hf.
  assert (Hd : (String.length (drop_str size (String c r)) <= String.length r)%nat)
    by (rewrite length_drop_str; cbn [String.length]; lia).
  rewrite (IH f ltac:(lia) r) by lia.
  rewrite (IH f ltac:(lia) (drop_str size (String c r))) by lia.
  rewrite (IH (String.length r) ltac:(lia) (drop_str size (String c r))) by lia.
  reflexivity.
Qed.

Lemma valid_from_fuel (f : nat) (s : string) :
  (String.length s <= f)%nat ->
  utf8.valid_from f s = utf8.ValidString s.
Proof.
  unfold utf8.ValidString.
  revert s. induction f as [f IH] using lt_wf_ind. intros s Hf.
  destruct s as [|c r]; [destruct f; reflexivity|].
  destruct f as [|f]; [simpl in Hf; lia|].
  simpl String.length. cbn [utf8.valid_from].
  pose proof (DecodeRune_size c r) as Hsz.
  destruct (utf8.DecodeRuneInString (String c r)) as [n size]. simpl in Hsz.
  simpl in Hf.
  assert (Hd : (String.length (drop_str size (String c r)) <= String.length r)%nat)
    by (rewrite length_drop_str; cbn [String.length]; lia).
  rewrite (IH f ltac:(lia) (drop_str size (String c r))) by lia.
  rewrite (IH (String.length r) ltac:(lia) (drop_str size (String c r))) by lia.
  reflexivity.
Qed.

Lemma unquote_loop_fuel (f : nat) (s : string) :
  (String.length s <= f)%nat -> json.unquote_loop f s = json.unquote s.
Proof.
  unfold json.unquote.
  revert s. induction f as [f IH] using lt_wf_ind. intros s Hf.
  destruct s as [|c r]; [destruct f; reflexivity|].
  destruct f as [|f]; [simpl in Hf; lia|].
  simpl String.length. cbn [json.unquote_loop].
  pose proof (DecodeRune_size c r) as Hsz.
  destruct (utf8.DecodeRuneInString (String c r)) as [n size]. simpl in Hsz.
  simpl in Hf.
  assert (Hd : forall k, (1 <= k)%nat ->
               (String.length (drop_str k (String c r)) <= String.length r)%nat)
    by (intros k Hk; rewrite length_drop_str; cbn [String.length]; lia).
  assert (Hd2 : (String.length (drop_str 6 (drop_str 6 (String c r)))
                 <= String.length r)%nat)
    by (rewrite !length_drop_str; cbn [String.length]; lia).
  assert (E : forall x, (String.length x <= String.length r)%nat ->
              json.unquote_loop f x = json.unquote_loop (String.length r) x).
  { intros x Hx. rewrite (IH f ltac:(lia) x) by lia.
    now rewrite (IH (String.length r) ltac:(lia) x) by lia. }
  rewrite (E (drop_str size (String c r))) by (apply Hd; lia).
  rewrite (E r) by lia.
  rewrite (E (drop_str 6 (String c r))) by (apply Hd; lia).
  rewrite (E (drop_str 6 (drop_str 6 (String c r)))) by exact Hd2.
  destruct r as [|e r']; [reflexivity|].
  rewrite (E r') by (simpl; lia).
  reflexivity.
Qed.

(** ** The scanner on what the encoder writes *)

Lemma prepend_prepend (a b : string) (r : option (string * string)) :
  json.prepend a (json.prepend b r) = json.prepend (a ++ b) r.
Proof.
  destruct r as [[raw rest]|]; simpl; [|reflexivity].
  now rewrite append_assoc.
Qed.

Lemma scan_string_plain (c : ascii) (X : string) :
  Ascii.eqb c dquote = false -> Ascii.eqb c bslash = false ->
  (byte_val c <? 0x20) = false ->
  json.scan_string (String c X)
  = json.prepend (String c EmptyString) (json.scan_string X).
Proof.
  intros H1 H2 H3. cbn [json.scan_string]. now rewrite H1, H2, H3.
Qed.

Lemma high_byte_plain (c : ascii) :
  (utf8.RuneSelf <=? byte_val c) = true ->
  Ascii.eqb c dquote = false /\ Ascii.eqb c bslash = false
  /\ (byte_val c <? 0x20) = false.
Proof.
  intros H. apply Z.leb_le in H. unfold utf8.RuneSelf in H.
  repeat split.
  - apply Ascii.eqb_neq. intros ->. vm_compute in H. now apply H.
  - apply Ascii.eqb_neq. intros ->. vm_compute in H. now apply H.
  - apply Z.ltb_ge. lia.
Qed.

Lemma scan_string_high (chunk X : string) :
  str_forallb (fun c => utf8.RuneSelf <=? byte_val c) chunk = true ->
  json.scan_string (chunk ++ X) = json.prepend chunk (json.scan_string X).
Proof.
  induction chunk as [|c chunk IH]; intros H.
  - simpl. now destruct (json.scan_string X) as [[? ?]|].
  - cbn [str_forallb] in H. apply andb_prop in H. destruct H as [Hc Hr].
    destruct (high_byte_plain c Hc) as (H1 & H2 & H3).
    rewrite append_cons, scan_string_plain by assumption.
    rewrite (IH Hr), prepend_prepend. reflexivity.
Qed.

Lemma scan_string_escape_byte (c : ascii) (X : string) :
  (byte_val c <? utf8.RuneSelf) = true ->
  json.htmlSafe (byte_val c) = false ->
  json.scan_string (json.escape_byte c ++ X)
  = json.prepend (json.escape_byte c) (json.scan_string X).
Proof.
  destruct c as [[] [] [] [] [] [] [] []]; intros H1 H2;
    try discriminate H1; try discriminate H2; reflexivity.
Qed.

Lemma scan_string_safe (c : ascii) (X : string) :
  (byte_val c <? utf8.RuneSelf) = true ->
  json.htmlSafe (byte_val c) = true ->
  json.scan_string (String c X)
  = json.prepend (String c EmptyString) (json.scan_string X).
Proof.
  destruct c as [[] [] [] [] [] [] [] []]; intros H1 H2;
    try discriminate H1; try discriminate H2; reflexivity.
Qed.

(** The text the encoder writes between the quotes is, for the scanner,
    the inside of a string literal. *)
Lemma scan_string_appendString_loop (f : nat) (s X : string) :
  json.scan_string (json.appendString_loop f s ++ X)
  = json.prepend (json.appendString_loop f s) (json.scan_string X).
Proof.
  revert s. induction f as [|f IH]; intros s.
  - simpl. now destruct (json.scan_string X) as [[? ?]|].
  - destruct s as [|c r].
    + simpl. now destruct (json.scan_string X) as [[? ?]|].
    + cbn [json.appendString_loop].
      destruct (byte_val c <? utf8.RuneSelf) eqn:Ea.
      * destruct (json.htmlSafe (byte_val c)) eqn:Es.
        -- rewrite append_cons. cbn [String.append].
           rewrite scan_string_safe by assumption.
           rewrite IH, prepend_prepend. reflexivity.
        -- rewrite append_assoc, scan_string_escape_byte by assumption.
           rewrite IH, prepend_prepend. reflexivity.
      * destruct (utf8.DecodeRuneInString (String c r)) as [n size] eqn:Ed.
        destruct ((n =? utf8.RuneError) && (size =? 1)%nat)%bool eqn:Ev.
        -- rewrite append_assoc.
           change (json.scan_string (String bslash "ufffd"
                                     ++ json.appendString_loop f r ++ X))
             with (json.prepend (String bslash "ufffd")
                     (json.scan_string (json.appendString_loop f r ++ X))).
           rewrite IH, prepend_prepend. reflexivity.
        -- assert (Hv : ~ (n = utf8.RuneError /\ size = 1%nat)).
           { intros [-> ->]. discriminate Ev. }
           apply Z.ltb_ge in Ea.
           destruct (DecodeRune_multibyte c r n size Ea Ed Hv)
             as (Hlen & Hsz & Hhigh & Henc & Hn).
           destruct ((n =? 0x2028) || (n =? 0x2029))%bool eqn:Eu.
           ++ rewrite !append_assoc.
              assert (Hd : json.hex_digit (Z.land n 15) = "8"%char
                           \/ json.hex_digit (Z.land n 15) = "9"%char).
              { apply orb_prop in Eu. destruct Eu as [Eu|Eu];
                  apply Z.eqb_eq in Eu; subst n; [left | right]; reflexivity. }
              destruct Hd as [-> | ->];
                match goal with
                | |- json.scan_string (?a ++ ?b ++ ?rest) = _ =>
                  change (json.scan_string (a ++ b ++ rest))
                    with (json.prepend (a ++ b) (json.scan_string rest))
                end;
                rewrite IH, prepend_prepend, !append_assoc; reflexivity.
           ++ rewrite append_assoc, scan_string_high by assumption.
              rewrite IH, prepend_prepend. reflexivity.
Qed.

Lemma scan_string_appendString (s rest : string) :
  json.scan_string (json.appendString_loop (String.length s) s
                    ++ String dquote rest)
  = Some (json.appendString_loop (String.length s) s, rest).
Proof.
  rewrite scan_string_appendString_loop.
  cbn [json.scan_string]. rewrite Ascii.eqb_refl. simpl.
  now rewrite append_nil_r.
Qed.

(** ** [unquote] on what the encoder writes *)

Lemma ValidString_cons (c : ascii) (r : string) :
  utf8.ValidString (String c r) = true ->
  ~ (fst (utf8.DecodeRuneInString (String c r)) = utf8.RuneError
     /\ snd (utf8.DecodeRuneInString (String c r)) = 1%nat)
  /\ utf8.ValidString
       (drop_str (snd (utf8.DecodeRuneInString (String c r))) (String c r))
     = true.
Proof.
  unfold utf8.ValidString at 1. simpl String.length. cbn [utf8.valid_from].
  pose proof (DecodeRune_size c r) as Hsz.
  destruct (utf8.DecodeRuneInString (String c r)) as [n size]. simpl in *.
  destruct ((n =? utf8.RuneError) && (size =? 1)%nat)%bool eqn:Ev;
    [discriminate|].
  intros H. split.
  - intros [-> ->]. discriminate Ev.
  - rewrite <- H. symmetry. apply valid_from_fuel.
    rewrite length_drop_str. cbn [String.length]. lia.
Qed.

Lemma drop_str_app_len (a b : string) (n : nat) :
  String.length a = n -> drop_str n (a ++ b) = b.
Proof. intros <-. apply drop_str_app. Qed.

Lemma unquote_step (Y : string) :
  json.unquote Y = json.unquote_loop (S (String.length Y)) Y.
Proof. symmetry. apply unquote_loop_fuel. lia. Qed.

Lemma unquote_loop_safe (f : nat) (c : ascii) (X : string) :
  (byte_val c <? utf8.RuneSelf) = true ->
  json.htmlSafe (byte_val c) = true ->
  json.unquote_loop (S f) (String c X)
  = option_map (String c) (json.unquote_loop f X).
Proof.
  destruct c as [[] [] [] [] [] [] [] []]; intros H1 H2;
    try discriminate H1; try discriminate H2; reflexivity.
Qed.

Lemma unquote_loop_escape_byte (f : nat) (c : ascii) (X : string) :
  (byte_val c <? utf8.RuneSelf) = true ->
  json.htmlSafe (byte_val c) = false ->
  json.unquote_loop (S f) (json.escape_byte c ++ X)
  = option_map (String c) (json.unquote_loop f X).
Proof.
  destruct c as [[] [] [] [] [] [] [] []]; intros H1 H2;
    try discriminate H1; try discriminate H2; reflexivity.
Qed.

Lemma unquote_loop_high (f : nat) (c : ascii) (r X : string) (n : Z) (size : nat) :
  utf8.RuneSelf <= byte_val c ->
  utf8.DecodeRuneInString (String c r) = (n, size) ->
  ~ (n = utf8.RuneError /\ size = 1%nat) ->
  json.unquote_loop (S f) (take_str size (String c r) ++ X)
  = option_map (String.append (take_str size (String c r)))
               (json.unquote_loop f X).
Proof.
  intros Hc Hd Hv.
  destruct (DecodeRune_multibyte c r n size Hc Hd Hv)
    as (Hlen & Hsz & Hhigh & Henc & Hn).
  pose proof (DecodeRune_prefix (String c r) X n size ltac:(discriminate) Hd Hv)
    as Hp.
  destruct size as [|size]; [lia|].
  assert (Hh : (utf8.RuneSelf <=? byte_val c) = true) by (apply Z.leb_le; lia).
  destruct (high_byte_plain c Hh) as (H1 & H2 & H3).
  assert (E : (byte_val c <? utf8.RuneSelf) = false) by (apply Z.ltb_ge; lia).
  change (take_str (S size) (String c r) ++ X)
    with (String c (take_str size r ++ X)) at 1.
  cbn [json.unquote_loop]. rewrite H1, H2, H3. cbn [orb]. rewrite E.
  change (String c (take_str size r ++ X))
    with (take_str (S size) (String c r) ++ X).
  rewrite Hp, Henc, (drop_str_app_len _ _ _ Hlen). reflexivity.
Qed.

Lemma unquote_loop_u202x (f : nat) (d : ascii) (X : string) :
  d = "8"%char \/ d = "9"%char ->
  json.unquote_loop (S f)
    (String bslash "u202" ++ String d EmptyString ++ X)
  = option_map
      (String.append
         (utf8.EncodeRune (if Ascii.eqb d "8" then 0x2028 else 0x2029)))
      (json.unquote_loop f X).
Proof. intros [-> | ->]; reflexivity. Qed.

(** Between its quotes, the encoder writes a text that [unquote] turns
    back into the string, when the string is valid UTF-8. *)
Lemma unquote_appendString_loop (s : string) :
  utf8.ValidString s = true ->
  json.unquote (json.appendString_loop (String.length s) s) = Some s.
Proof.
  remember (String.length s) as k eqn:Hk.
  assert (Hle : (String.length s <= k)%nat) by lia. clear Hk.
  revert s Hle. induction k as [k IH] using lt_wf_ind. intros s Hle Hv.
  rewrite appendString_loop_fuel by assumption.
  destruct s as [|c r]; [reflexivity|].
  cbn [String.length] in *. cbn [json.appendString_loop].
  destruct (ValidString_cons c r Hv) as [Hne Hrest].
  assert (IHr : forall x, (String.length x <= String.length r)%nat ->
                utf8.ValidString x = true ->
                json.unquote (json.appendString_loop (String.length r) x)
                = Some x).
  { intros x Hx Hvx. rewrite appendString_loop_fuel by assumption.
    rewrite <- (IH (String.length x) ltac:(lia) x (le_n _) Hvx).
    reflexivity. }
  assert (Hfuel : forall chunk x g,
             chunk <> EmptyString ->
             json.unquote_loop (S (String.length (chunk ++ x))) (chunk ++ x)
             = option_map g (json.unquote_loop (String.length (chunk ++ x)) x) ->
             json.unquote (chunk ++ x) = option_map g (json.unquote x)).
  { intros chunk x g Hc Hs. rewrite unquote_step, Hs.
    rewrite unquote_loop_fuel; [reflexivity|].
    rewrite length_append. lia. }
  destruct (byte_val c <? utf8.RuneSelf) eqn:Ea.
  - (* one byte *)
    assert (Hd : utf8.DecodeRuneInString (String c r) = (byte_val c, 1%nat)).
    { unfold utf8.DecodeRuneInString. now rewrite Ea. }
    rewrite Hd in Hrest. simpl in Hrest.
    destruct (json.htmlSafe (byte_val c)) eqn:Es.
    + rewrite (Hfuel (String c EmptyString) _ (String c)).
      * rewrite IHr by (assumption || lia). reflexivity.
      * discriminate.
      * apply unquote_loop_safe; assumption.
    + rewrite (Hfuel (json.escape_byte c) _ (String c)).
      * rewrite IHr by (assumption || lia). reflexivity.
      * destruct c as [[] [] [] [] [] [] [] []]; discriminate.
      * apply unquote_loop_escape_byte; assumption.
  - (* a sequence of two bytes or more *)
    destruct (utf8.DecodeRuneInString (String c r)) as [n size] eqn:Ed.
    simpl in Hne, Hrest.
    destruct ((n =? utf8.RuneError) && (size =? 1)%nat)%bool eqn:Ev.
    { exfalso. apply Hne. apply andb_prop in Ev. destruct Ev as [E1 E2].
      apply Z.eqb_eq in E1. apply Nat.eqb_eq in E2. now split. }
    apply Z.ltb_ge in Ea.
    destruct (DecodeRune_multibyte c r n size Ea Ed Hne)
      as (Hlen & Hsz & Hhigh & Henc & Hn).
    assert (Hdrop : (String.length (drop_str size (String c r))
                     <= String.length r)%nat)
      by (rewrite length_drop_str; cbn [String.length]; lia).
    destruct ((n =? 0x2028) || (n =? 0x2029))%bool eqn:Eu.
    + assert (Hd : exists d, (d = "8"%char \/ d = "9"%char)
                     /\ json.hex_digit (Z.land n 15) = d
                     /\ (if Ascii.eqb d "8" then 0x2028 else 0x2029) = n).
      { apply orb_prop in Eu. destruct Eu as [Eu|Eu];
          apply Z.eqb_eq in Eu; subst n;
          [exists "8"%char | exists "9"%char]; repeat split; auto. }
      destruct Hd as (d & Hd8 & -> & Hdn).
      rewrite <- append_assoc.
      rewrite (Hfuel (String bslash "u202" ++ String d EmptyString) _
                     (String.append (utf8.EncodeRune n))).
      * rewrite IHr by assumption. simpl.
        rewrite Henc, take_drop_str. reflexivity.
      * discriminate.
      * rewrite append_assoc, unquote_loop_u202x by assumption.
        now rewrite Hdn.
    + rewrite (Hfuel (take_str size (String c r)) _
                     (String.append (take_str size (String c r)))).
      * rewrite IHr by assumption. simpl. now rewrite take_drop_str.
      * destruct size; [lia | discriminate].
      * eapply unquote_loop_high; eassumption.
Qed.

(** ** The decoder on what the encoder writes *)

Lemma print_head (v : json.Value) :
  printable v = true ->
  exists c r, json.print v = String c r /\ value_head c = true.
Proof.
  destruct v as [|[|]|lit|s|vs|ms]; simpl; intros H; try discriminate;
    eexists; eexists; (split; [reflexivity | reflexivity]).
Qed.

Lemma value_head_facts (c : ascii) :
  value_head c = true ->
  json.isSpace c = false
  /\ Ascii.eqb c "]" = false /\ Ascii.eqb c "}" = false
  /\ Ascii.eqb c "," = false /\ Ascii.eqb c ":" = false.
Proof.
  destruct c as [[] [] [] [] [] [] [] []]; intros H;
    try discriminate H; repeat split.
Qed.

Lemma skip_ws_head (c : ascii) (X : string) :
  json.isSpace c = false -> json.skip_ws (String c X) = String c X.
Proof. intros H. cbn [json.skip_ws]. now rewrite H. Qed.

Lemma next_is_head (d c : ascii) (X : string) :
  json.isSpace c = false ->
  json.next_is d (String c X) = if Ascii.eqb c d then Some X else None.
Proof. intros H. unfold json.next_is. now rewrite skip_ws_head. Qed.

Lemma parse_value_string (f : nat) (d : Z) (r raw r' str : string) :
  json.scan_string r = Some (raw, r') ->
  json.unquote raw = Some str ->
  json.parse_value (S f) d (String dquote r) = Some (json.Str str, r').
Proof.
  intros H1 H2. cbn [json.parse_value].
  rewrite skip_ws_head by reflexivity.
  change (Ascii.eqb dquote "{") with false.
  change (Ascii.eqb dquote "[") with false.
  rewrite Ascii.eqb_refl, H1, H2. reflexivity.
Qed.

Lemma parse_value_array (f : nat) (d : Z) (X r' : string)
      (vs : list json.Value) :
  d + 1 <= json.maxNestingDepth ->
  json.next_is "]" X = None ->
  json.parse_elements f (d + 1) X = Some (vs, r') ->
  json.parse_value (S f) d (String "[" X) = Some (json.Array vs, r').
Proof.
  intros Hd H1 H2. cbn [json.parse_value].
  rewrite skip_ws_head by reflexivity.
  change (Ascii.eqb "[" "{") with false.
  apply Z.ltb_ge in Hd.
  rewrite Ascii.eqb_refl, Hd, H1, H2. reflexivity.
Qed.

Lemma parse_value_object (f : nat) (d : Z) (X r' : string)
      (ms : list (string * json.Value)) :
  d + 1 <= json.maxNestingDepth ->
  json.next_is "}" X = None ->
  json.parse_members f (d + 1) X = Some (ms, r') ->
  json.parse_value (S f) d (String "{" X) = Some (json.Object ms, r').
Proof.
  intros Hd H1 H2. cbn [json.parse_value].
  rewrite skip_ws_head by reflexivity.
  apply Z.ltb_ge in Hd.
  rewrite Ascii.eqb_refl, Hd, H1, H2. reflexivity.
Qed.

Lemma parse_elements_last (f : nat) (d : Z) (X rest : string)
      (v : json.Value) :
  json.parse_value f d X = Some (v, String "]" rest) ->
  json.parse_elements (S f) d X = Some (v :: nil, rest).
Proof. intros H. cbn [json.parse_elements]. rewrite H. reflexivity. Qed.

Lemma parse_elements_more (f : nat) (d : Z) (X Y rest : string)
      (v : json.Value) (vs : list json.Value) :
  json.parse_value f d X = Some (v, String "," Y) ->
  json.parse_elements f d Y = Some (vs, rest) ->
  json.parse_elements (S f) d X = Some (v :: vs, rest).
Proof.
  intros H1 H2. cbn [json.parse_elements]. rewrite H1.
  rewrite next_is_head by reflexivity. rewrite Ascii.eqb_refl, H2.
  reflexivity.
Qed.

Lemma appendString_app (k Y : string) :
  json.appendString k ++ Y
  = String dquote (json.appendString_loop (String.length k) k
                   ++ String dquote Y).
Proof.
  unfold json.appendString. cbn [String.append].
  now rewrite append_assoc.
Qed.

Lemma scan_key_appendString (k Y : string) :
  utf8.ValidString k = true ->
  json.scan_key (json.appendString k ++ Y) = Some (k, Y).
Proof.
  intros Hk. unfold json.scan_key. rewrite appendString_app.
  rewrite skip_ws_head by reflexivity.
  rewrite Ascii.eqb_refl.
  rewrite scan_string_appendString, unquote_appendString_loop by assumption.
  reflexivity.
Qed.

Lemma parse_members_last (f : nat) (d : Z) (k X rest : string)
      (v : json.Value) :
  utf8.ValidString k = true ->
  json.parse_value f d X = Some (v, String "}" rest) ->
  json.parse_members (S f) d (json.appendString k ++ String ":" X)
  = Some ((k, v) :: nil, rest).
Proof.
  intros Hk H. cbn [json.parse_members].
  rewrite scan_key_appendString by assumption.
  rewrite next_is_head by reflexivity. rewrite Ascii.eqb_refl, H.
  reflexivity.
Qed.

Lemma parse_members_more (f : nat) (d : Z) (k X Y rest : string)
      (v : json.Value) (ms : list (string * json.Value)) :
  utf8.ValidString k = true ->
  json.parse_value f d X = Some (v, String "," Y) ->
  json.parse_members f d Y = Some (ms, rest) ->
  json.parse_members (S f) d (json.appendString k ++ String ":" X)
  = Some ((k, v) :: ms, rest).
Proof.
  intros Hk H1 H2. cbn [json.parse_members].
  rewrite scan_key_appendString by assumption.
  rewrite next_is_head by reflexivity. rewrite Ascii.eqb_refl, H1.
  rewrite next_is_head by reflexivity. rewrite Ascii.eqb_refl, H2.
  reflexivity.
Qed.

Lemma length_appendString (k : string) :
  (2 <= String.length (json.appendString k))%nat.
Proof.
  unfold json.appendString. cbn [String.length]. rewrite length_append.
  simpl. lia.
Qed.

Lemma length_print_pos (v : json.Value) :
  printable v = true -> (1 <= String.length (json.print v))%nat.
Proof.
  intros H. destruct (print_head v H) as (c & r & -> & _). simpl. lia.
Qed.

Lemma print_array_app (vs : list json.Value) (rest : string) :
  json.print (json.Array vs) ++ rest
  = String "[" (json.print_elems json.print vs ++ String "]" rest).
Proof.
  cbn [json.print]. change ("[" ++ ?x) with (String "[" x).
  cbn [String.append]. now rewrite append_assoc.
Qed.

Lemma print_object_app (ms : list (string * json.Value)) (rest : string) :
  json.print (json.Object ms) ++ rest
  = String "{" (json.print_members json.print ms ++ String "}" rest).
Proof.
  cbn [json.print]. change ("{" ++ ?x) with (String "{" x).
  cbn [String.append]. now rewrite append_assoc.
Qed.

Lemma length_print_array (vs : list json.Value) :
  String.length (json.print (json.Array vs))
  = S (S (String.length (json.print_elems json.print vs))).
Proof.
  cbn [json.print]. change ("[" ++ ?x) with (String "[" x).
  cbn [String.length]. rewrite length_append. simpl. lia.
Qed.

Lemma length_print_object (ms : list (string * json.Value)) :
  String.length (json.print (json.Object ms))
  = S (S (String.length (json.print_members json.print ms))).
Proof.
  cbn [json.print]. change ("{" ++ ?x) with (String "{" x).
  cbn [String.length]. rewrite length_append. simpl. lia.
Qed.

Lemma deepest_nonneg {A : Type} (g : A -> Z) (l : list A) :
  0 <= List.fold_right (fun x a => Z.max (g x) a) 0 l.
Proof. induction l as [|x l IH]; simpl; lia. Qed.

Lemma parse_value_empty_array (f : nat) (d : Z) (rest : string) :
  d + 1 <= json.maxNestingDepth ->
  json.parse_value (S f) d (String "[" (String "]" rest))
  = Some (json.Array nil, rest).
Proof.
  intros Hd. apply Z.ltb_ge in Hd. cbn [json.parse_value].
  rewrite skip_ws_head by reflexivity.
  change (Ascii.eqb "[" "{") with false.
  rewrite Ascii.eqb_refl, Hd. rewrite next_is_head by reflexivity.
  reflexivity.
Qed.

Lemma parse_value_empty_object (f : nat) (d : Z) (rest : string) :
  d + 1 <= json.maxNestingDepth ->
  json.parse_value (S f) d (String "{" (String "}" rest))
  = Some (json.Object nil, rest).
Proof.
  intros Hd. apply Z.ltb_ge in Hd. cbn [json.parse_value].
  rewrite skip_ws_head by reflexivity.
  rewrite Ascii.eqb_refl, Hd. rewrite next_is_head by reflexivity.
  reflexivity.
Qed.

(** The decoder reads back a document the encoder wrote, with fuel for
    the length of the text, when the document and what is open around it
    nest no deeper than the scanner allows. *)
Lemma parse_print_fuel (f : nat) :
  (forall v rest d,
      printable v = true ->
      d + nesting v <= json.maxNestingDepth ->
      (String.length (json.print v) <= f)%nat ->
      json.parse_value f d (json.print v ++ rest) = Some (v, rest))
  /\ (forall v vs rest d,
         forallb printable (v :: vs) = true ->
         d + List.fold_right (fun x a => Z.max (nesting x) a) 0 (v :: vs)
         <= json.maxNestingDepth ->
         (String.length (json.print_elems json.print (v :: vs)) < f)%nat ->
         json.parse_elements f d
           (json.print_elems json.print (v :: vs) ++ String "]" rest)
         = Some (v :: vs, rest))
  /\ (forall k v ms rest d,
         forallb (fun kv => utf8.ValidString (fst kv) && printable (snd kv))
                 ((k, v) :: ms) = true ->
         d + List.fold_right (fun kv a => Z.max (nesting (snd kv)) a) 0
                             ((k, v) :: ms)
         <= json.maxNestingDepth ->
         (String.length (json.print_members json.print ((k, v) :: ms)) < f)%nat ->
         json.parse_members f d
           (json.print_members json.print ((k, v) :: ms) ++ String "}" rest)
         = Some ((k, v) :: ms, rest)).
Proof.
  induction f as [|f (IHv & IHe & IHm)].
  - repeat split.
    + intros v rest d Hp Hn Hl. pose proof (length_print_pos v Hp). lia.
    + intros; lia.
    + intros; lia.
  - repeat split.
    + (* a value *)
      intros v rest d Hp Hn Hl.
      destruct v as [|[|]|lit|s|vs|ms]; try reflexivity; try discriminate.
      * (* a string *)
        cbn [json.print]. rewrite appendString_app.
        eapply parse_value_string.
        -- apply scan_string_appendString.
        -- apply unquote_appendString_loop. exact Hp.
      * (* an array *)
        cbn [nesting] in Hn.
        pose proof (deepest_nonneg nesting vs) as Hpos.
        destruct vs as [|v vs];
          [apply (parse_value_empty_array f d rest); lia|].
        rewrite print_array_app. rewrite length_print_array in Hl.
        cbn [printable] in Hp.
        assert (Hv : printable v = true)
          by (cbn [forallb] in Hp; now apply andb_prop in Hp).
        destruct (print_head v Hv) as (c & r & Hc & Hh).
        destruct (value_head_facts c Hh) as (Hs & Hb & _).
        apply parse_value_array; [lia | |].
        -- destruct vs; cbn [json.print_elems]; rewrite Hc;
             rewrite ?append_cons; rewrite next_is_head by assumption;
             now rewrite Hb.
        -- apply IHe; [exact Hp | lia | lia].
      * (* an object *)
        cbn [nesting] in Hn.
        pose proof (deepest_nonneg (fun kv => nesting (snd kv)) ms) as Hpos.
        destruct ms as [|[k v] ms];
          [apply (parse_value_empty_object f d rest); lia|].
        rewrite print_object_app. rewrite length_print_object in Hl.
        cbn [printable] in Hp.
        apply parse_value_object; [lia | |].
        -- destruct ms; cbn [json.print_members];
             rewrite ?append_assoc, appendString_app;
             now rewrite next_is_head by reflexivity.
        -- apply IHm; [exact Hp | lia | lia].
    + (* the elements of an array *)
      intros v vs rest d Hp Hn Hl. cbn [forallb] in Hp.
      apply andb_prop in Hp. destruct Hp as [Hv Hvs].
      pose proof (length_print_pos v Hv) as Hpos.
      cbn [List.fold_right] in Hn.
      destruct vs as [|v' vs].
      * cbn [json.print_elems] in *.
        apply parse_elements_last. apply IHv; [exact Hv | lia | lia].
      * cbn [json.print_elems] in *.
        rewrite !length_append in Hl. cbn [String.length] in Hl.
        rewrite !append_assoc. cbn [String.append].
        eapply parse_elements_more.
        -- apply IHv; [exact Hv | lia | lia].
        -- apply IHe; [exact Hvs | | lia].
           cbn [List.fold_right] in *. lia.
    + (* the members of an object *)
      intros k v ms rest d Hp Hn Hl. cbn [forallb] in Hp.
      apply andb_prop in Hp. destruct Hp as [Hkv Hms].
      cbn [fst snd] in Hkv. apply andb_prop in Hkv. destruct Hkv as [Hk Hv].
      pose proof (length_print_pos v Hv) as Hpos.
      pose proof (length_appendString k) as Hkl.
      cbn [List.fold_right snd] in Hn.
      destruct ms as [|[k' v'] ms].
      * cbn [json.print_members] in *.
        rewrite !length_append in Hl. cbn [String.length] in Hl.
        rewrite !append_assoc. cbn [String.append].
        apply parse_members_last; [exact Hk|].
        apply IHv; [exact Hv | lia | lia].
      * cbn [json.print_members] in *.
        rewrite !length_append in Hl. cbn [String.length] in Hl.
        rewrite !append_assoc. cbn [String.append].
        eapply parse_members_more; [exact Hk | |].
        -- apply IHv; [exact Hv | lia | lia].
        -- apply IHm; [exact Hms | | lia].
           cbn [List.fold_right snd] in *. lia.
Qed.

Lemma parse_print (v : json.Value) :
  printable v = true ->
  nesting v <= json.maxNestingDepth ->
  json.parse (json.print v) = Some v.
Proof.
  intros Hp Hn. unfold json.parse.
  rewrite <- (append_nil_r (json.print v)) at 2.
  rewrite (proj1 (parse_print_fuel (S (String.length (json.print v)))))
    by (assumption || lia).
  reflexivity.
Qed.

(** ** The fuel of the decoder *)

Lemma skip_ws_length (s : string) :
  (String.length (json.skip_ws s) <= String.length s)%nat.
Proof.
  induction s as [|c s IH]; simpl; [lia|].
  destruct (json.isSpace c); simpl; lia.
Qed.

Lemma next_is_length (c : ascii) (s r : string) :
  json.next_is c s = Some r -> (String.length r < String.length s)%nat.
Proof.
  unfold json.next_is. pose proof (skip_ws_length s) as H.
  destruct (json.skip_ws s) as [|d r0]; [discriminate|].
  destruct (Ascii.eqb d c); [|discriminate].
  intros E. injection E as <-. simpl in H. lia.
Qed.

Lemma prepend_Some (a : string) (x : option (string * string)) (raw r : string) :
  json.prepend a x = Some (raw, r) -> exists raw', x = Some (raw', r).
Proof.
  destruct x as [[raw' r']|]; simpl; [|discriminate].
  intros E. injection E as _ <-. now exists raw'.
Qed.

Lemma scan_string_length (s raw r : string) :
  json.scan_string s = Some (raw, r) ->
  (String.length r < String.length s)%nat.
Proof.
  remember (String.length s) as n eqn:Hn.
  assert (Hle : (String.length s <= n)%nat) by lia. clear Hn.
  revert s raw r Hle. induction n as [n IH] using lt_wf_ind.
  intros s raw r Hle H. destruct s as [|c s1]; [discriminate|].
  cbn [json.scan_string] in H. cbn [String.length] in *.
  destruct (Ascii.eqb c dquote).
  { injection H as _ <-. lia. }
  destruct (Ascii.eqb c bslash).
  { destruct s1 as [|e s2]; [discriminate|]. cbn [String.length] in *.
    destruct (str_mem e "bfnrt/" || Ascii.eqb e bslash || Ascii.eqb e dquote)%bool.
    { apply prepend_Some in H. destruct H as [raw' H].
      apply (IH (String.length s2)) in H; lia. }
    destruct (Ascii.eqb e "u"); [|discriminate].
    destruct s2 as [|h1 [|h2 [|h3 [|h4 s6]]]]; try discriminate.
    destruct (json.isHex h1 && json.isHex h2 && json.isHex h3 && json.isHex h4)%bool;
      [|discriminate].
    apply prepend_Some in H. destruct H as [raw' H]. cbn [String.length] in *.
    apply (IH (String.length s6)) in H; lia. }
  destruct (byte_val c <? 32); [discriminate|].
  apply prepend_Some in H. destruct H as [raw' H].
  apply (IH (String.length s1)) in H; lia.
Qed.

Lemma literal_length (word : string) (v x : json.Value) (s r : string) :
  word <> EmptyString ->
  json.literal word v s = Some (x, r) ->
  (String.length r < String.length s)%nat.
Proof.
  unfold json.literal. intros Hw H.
  destruct (String.eqb_spec (take_str (String.length word) s) word) as [E|];
    [|discriminate].
  injection H as _ <-. rewrite length_drop_str.
  rewrite <- (take_drop_str (String.length word) s) at 2.
  rewrite length_append, E, length_drop_str.
  destruct word; [congruence|]. simpl. lia.
Qed.

Lemma take_digits_length (s : string) :
  (String.length (snd (json.take_digits s)) <= String.length s)%nat.
Proof.
  induction s as [|c s IH]; simpl; [lia|].
  destruct (json.isDigit c); [|simpl; lia].
  destruct (json.take_digits s) as [ds rest]. simpl in *. lia.
Qed.

Lemma scan_exp_length (s lit r : string) :
  json.scan_exp s = Some (lit, r) -> (String.length r <= String.length s)%nat.
Proof.
  unfold json.scan_exp. destruct s as [|e s1].
  { intros H. injection H as _ <-. lia. }
  destruct (Ascii.eqb e "e" || Ascii.eqb e "E")%bool.
  - set (p := match s1 with
              | EmptyString => (EmptyString, s1)
              | String g r0 =>
                if (Ascii.eqb g "+" || Ascii.eqb g "-")%bool
                then (String g EmptyString, r0) else (EmptyString, s1)
              end).
    assert (Hp : (String.length (snd p) <= String.length s1)%nat).
    { subst p. destruct s1 as [|g r0]; [simpl; lia|].
      destruct (Ascii.eqb g "+" || Ascii.eqb g "-")%bool; simpl; lia. }
    destruct p as [sign r1]. simpl in Hp.
    pose proof (take_digits_length r1) as Hd.
    destruct (json.take_digits r1) as [ds rest]. simpl in Hd.
    destruct ds; [discriminate|].
    intros H. injection H as _ <-. simpl. lia.
  - intros H. injection H as _ <-. lia.
Qed.

Lemma scan_frac_length (s lit r : string) :
  json.scan_frac s = Some (lit, r) -> (String.length r <= String.length s)%nat.
Proof.
  unfold json.scan_frac. intros H.
  assert (Hdef : forall x, json.scan_exp x = Some (lit, r) ->
                 (String.length r <= String.length x)%nat)
    by (intros x; apply scan_exp_length).
  destruct s as [|c s1]; [now apply Hdef|].
  destruct (Ascii.eqb_spec c ".") as [->|Hc].
  - pose proof (take_digits_length s1) as Hd.
    destruct (json.take_digits s1) as [ds rest]. simpl in Hd.
    destruct ds; [discriminate|].
    apply prepend_Some in H. destruct H as [raw' H].
    apply scan_exp_length in H. simpl. lia.
  - destruct c as [[] [] [] [] [] [] [] []];
      try (now apply Hdef); contradiction Hc; reflexivity.
Qed.

Lemma scan_number_length (s lit r : string) :
  json.scan_number s = Some (lit, r) ->
  (String.length r < String.length s)%nat.
Proof.
  unfold json.scan_number.
  set (p := match s with
            | String "-" r0 => ("-", r0)
            | _ => (EmptyString, s)
            end).
  assert (Hp : (String.length (snd p) <= String.length s)%nat).
  { subst p. destruct s as [|c s1]; [simpl; lia|].
    destruct c as [[] [] [] [] [] [] [] []]; simpl; lia. }
  destruct p as [sign s1]. simpl in Hp.
  destruct s1 as [|c s2]; [discriminate|]. cbn [String.length] in Hp.
  destruct (Ascii.eqb c "0").
  - intros H. apply prepend_Some in H. destruct H as [raw' H].
    apply scan_frac_length in H. lia.
  - destruct (json.isDigit c); [|discriminate].
    pose proof (take_digits_length s2) as Hd.
    destruct (json.take_digits s2) as [ds rest]. simpl in Hd.
    intros H. apply prepend_Some in H. destruct H as [raw' H].
    apply scan_frac_length in H. lia.
Qed.

Lemma scan_key_length (s k r : string) :
  json.scan_key s = Some (k, r) -> (String.length r < String.length s)%nat.
Proof.
  unfold json.scan_key. pose proof (skip_ws_length s) as Hs.
  destruct (json.skip_ws s) as [|c r0]; [discriminate|].
  destruct (Ascii.eqb c dquote); [|discriminate].
  destruct (json.scan_string r0) as [[raw rest]|] eqn:E; [|discriminate].
  apply scan_string_length in E.
  destruct (json.unquote raw); [|discriminate].
  intros H. injection H as _ <-. simpl in Hs. lia.
Qed.

Ltac refuel g :=
  intros g Hg; destruct g as [|g]; [exfalso; lia|];
  cbn [json.parse_value json.parse_elements json.parse_members].

(** A successful run consumes input, and any fuel that covers the
    consumed bytes gives the same result. *)
Lemma parse_fuel (f : nat) :
  (forall d s v r, json.parse_value f d s = Some (v, r) ->
     (String.length r < String.length s)%nat /\
     forall g, (String.length s - String.length r <= g)%nat ->
               json.parse_value g d s = Some (v, r)) /\
  (forall d s vs r, json.parse_elements f d s = Some (vs, r) ->
     (String.length r < String.length s)%nat /\
     forall g, (String.length s - String.length r <= g)%nat ->
               json.parse_elements g d s = Some (vs, r)) /\
  (forall d s ms r, json.parse_members f d s = Some (ms, r) ->
     (String.length r < String.length s)%nat /\
     forall g, (String.length s - String.length r <= g)%nat ->
               json.parse_members g d s = Some (ms, r)).
Proof.
  induction f as [|f [IHv [IHe IHm]]].
  { repeat split; discriminate. }
  split; [|split].
  - intros d s v r H. cbn [json.parse_value] in H.
    pose proof (skip_ws_length s) as Hs.
    destruct (json.skip_ws s) as [|c r0] eqn:Ews; [discriminate|].
    cbn [String.length] in Hs.
    destruct (Ascii.eqb c "{") eqn:E1.
    { destruct (json.maxNestingDepth <? d + 1) eqn:Ed; [discriminate|].
      destruct (json.next_is "}" r0) as [r'|] eqn:En.
      - injection H as <- <-. apply next_is_length in En as Hn.
        split; [lia|]. refuel g. now rewrite Ews, E1, Ed, En.
      - destruct (json.parse_members f (d + 1) r0) as [[ms r']|] eqn:Em;
          [|discriminate].
        injection H as <- <-. destruct (IHm _ _ _ _ Em) as [Hl Hg'].
        split; [lia|]. refuel g.
        rewrite Ews, E1, Ed, En, Hg'; [reflexivity|lia]. }
    destruct (Ascii.eqb c "[") eqn:E2.
    { destruct (json.maxNestingDepth <? d + 1) eqn:Ed; [discriminate|].
      destruct (json.next_is "]" r0) as [r'|] eqn:En.
      - injection H as <- <-. apply next_is_length in En as Hn.
        split; [lia|]. refuel g. now rewrite Ews, E1, E2, Ed, En.
      - destruct (json.parse_elements f (d + 1) r0) as [[vs r']|] eqn:Em;
          [|discriminate].
        injection H as <- <-. destruct (IHe _ _ _ _ Em) as [Hl Hg'].
        split; [lia|]. refuel g.
        rewrite Ews, E1, E2, Ed, En, Hg'; [reflexivity|lia]. }
    destruct (Ascii.eqb c dquote) eqn:E3.
    { destruct (json.scan_string r0) as [[raw r']|] eqn:Esc; [|discriminate].
      destruct (json.unquote raw) as [str|] eqn:Eu; [|discriminate].
      injection H as <- <-. apply scan_string_length in Esc as Hn.
      split; [lia|]. refuel g. now rewrite Ews, E1, E2, E3, Esc, Eu. }
    destruct (Ascii.eqb c "t") eqn:E4.
    { apply literal_length in H as Hn; [|discriminate]. cbn [String.length] in Hn.
      split; [lia|]. refuel g. now rewrite Ews, E1, E2, E3, E4. }
    destruct (Ascii.eqb c "f") eqn:E5.
    { apply literal_length in H as Hn; [|discriminate]. cbn [String.length] in Hn.
      split; [lia|]. refuel g. now rewrite Ews, E1, E2, E3, E4, E5. }
    destruct (Ascii.eqb c "n") eqn:E6.
    { apply literal_length in H as Hn; [|discriminate]. cbn [String.length] in Hn.
      split; [lia|]. refuel g. now rewrite Ews, E1, E2, E3, E4, E5, E6. }
    destruct (json.scan_number (String c r0)) as [[lit r']|] eqn:En; [|discriminate].
    injection H as <- <-. apply scan_number_length in En as Hn.
    cbn [String.length] in Hn.
    split; [lia|]. refuel g. now rewrite Ews, E1, E2, E3, E4, E5, E6, En.
  - intros d s vs r H. cbn [json.parse_elements] in H.
    destruct (json.parse_value f d s) as [[v r1]|] eqn:Ev; [|discriminate].
    destruct (IHv _ _ _ _ Ev) as [Hl1 Hg1].
    destruct (json.next_is "," r1) as [r2|] eqn:Ec.
    + apply next_is_length in Ec as Hn.
      destruct (json.parse_elements f d r2) as [[vs' r3]|] eqn:Ee; [|discriminate].
      injection H as <- <-. destruct (IHe _ _ _ _ Ee) as [Hl3 Hg3].
      split; [lia|]. refuel g.
      rewrite Hg1 by lia. rewrite Ec, Hg3; [reflexivity|lia].
    + destruct (json.next_is "]" r1) as [r2|] eqn:Eb; [|discriminate].
      injection H as <- <-. apply next_is_length in Eb as Hn.
      split; [lia|]. refuel g.
      rewrite Hg1 by lia. now rewrite Ec, Eb.
  - intros d s ms r H. cbn [json.parse_members] in H.
    destruct (json.scan_key s) as [[k r0]|] eqn:Ek; [|discriminate].
    apply scan_key_length in Ek as Hk.
    destruct (json.next_is ":" r0) as [r1|] eqn:Ecol; [|discriminate].
    apply next_is_length in Ecol as Hcol.
    destruct (json.parse_value f d r1) as [[v r2]|] eqn:Ev; [|discriminate].
    destruct (IHv _ _ _ _ Ev) as [Hl2 Hg2].
    destruct (json.next_is "," r2) as [r3|] eqn:Ec.
    + apply next_is_length in Ec as Hn.
      destruct (json.parse_members f d r3) as [[ms' r4]|] eqn:Em; [|discriminate].
      injection H as <- <-. destruct (IHm _ _ _ _ Em) as [Hl4 Hg4].
      split; [lia|]. refuel g.
      rewrite Ek, Ecol, Hg2 by lia. rewrite Ec, Hg4; [reflexivity|lia].
    + destruct (json.next_is "}" r2) as [r3|] eqn:Eb; [|discriminate].
      injection H as <- <-. apply next_is_length in Eb as Hn.
      split; [lia|]. refuel g.
      rewrite Ek, Ecol, Hg2 by lia. now rewrite Ec, Eb.
Qed.

(** The fuel that [json.parse] gives the decoder is enough for every
    input: what any fuel reads, that fuel reads as well. *)
Lemma parse_fuel_enough (f : nat) (d : Z) (data : string) (v : json.Value)
      (r : string) :
  json.parse_value f d data = Some (v, r) ->
  json.parse_value (S (String.length data)) d data = Some (v, r).
Proof.
  intros H. destruct (parse_fuel f) as [Hv _].
  destruct (Hv _ _ _ _ H) as [_ Hg]. apply Hg. lia.
Qed.

(** ** Marshal, then Unmarshal *)

Lemma decode_members_cons {T F : Type} (fields : list (string * F))
      (set : F -> T -> json.Value -> T * error) (cur : T) (k : string)
      (v : json.Value) (ms : list (string * json.Value)) (f : F) :
  jsonrt.find_field fields k = Some f ->
  jsonrt.decode_members fields set cur ((k, v) :: ms)
  = (let '(cur', e1) := set f cur v in
     let '(res, e2) := jsonrt.decode_members fields set cur' ms in
     (res, saveError e1 e2)).
Proof. intros H. cbn [jsonrt.decode_members]. now rewrite H. Qed.

Lemma decode_elems_map {A : Type} (zero : A)
      (dec : A -> json.Value -> A * error) (enc : A -> json.Value)
      (xs : list A) :
  (forall x, dec zero (enc x) = (x, None)) ->
  jsonrt.decode_elems zero dec nil (List.map enc xs) = (xs, None).
Proof.
  intros H. induction xs as [|x xs IH]; simpl; [reflexivity|].
  now rewrite H, IH.
Qed.

Lemma decode_encode_strings (l : slice string) :
  jsonrt.decode_strings None (jsonrt.encode_strings l) = (l, None).
Proof.
  destruct l as [xs|]; [|reflexivity].
  unfold jsonrt.decode_strings, jsonrt.decode_slice, jsonrt.encode_strings.
  now rewrite decode_elems_map.
Qed.

Lemma decode_encode_EntityValue (x : EntityValue) :
  jsonrt.decode_EntityValue zero_EntityValue (jsonrt.encode_EntityValue x)
  = (x, None).
Proof.
  destruct x as [value expressions].
  unfold jsonrt.decode_EntityValue, jsonrt.encode_EntityValue.
  rewrite (decode_members_cons _ _ _ _ _ _ F_Value) by reflexivity.
  cbn [jsonrt.set_EntityValue jsonrt.decode_string Value Expressions
       zero_EntityValue].
  rewrite (decode_members_cons _ _ _ _ _ _ F_Expressions) by reflexivity.
  cbn [jsonrt.set_EntityValue Value Expressions].
  rewrite decode_encode_strings. reflexivity.
Qed.

Lemma decode_encode_EntityValues (l : slice EntityValue) :
  jsonrt.decode_EntityValues None (jsonrt.encode_EntityValues l) = (l, None).
Proof.
  destruct l as [xs|]; [|reflexivity].
  unfold jsonrt.decode_EntityValues, jsonrt.decode_slice,
    jsonrt.encode_EntityValues.
  rewrite decode_elems_map; [reflexivity|].
  apply decode_encode_EntityValue.
Qed.

Lemma decode_encode_Entity (e : Entity) :
  jsonrt.decode_Entity zero_Entity (jsonrt.encode_Entity e) = (e, None).
Proof.
  destruct e as [builtin doc id values].
  unfold jsonrt.decode_Entity, jsonrt.encode_Entity.
  rewrite (decode_members_cons _ _ _ _ _ _ F_Builtin) by reflexivity.
  cbn [jsonrt.set_Entity jsonrt.decode_bool Builtin Doc Id Values zero_Entity].
  rewrite (decode_members_cons _ _ _ _ _ _ F_Doc) by reflexivity.
  cbn [jsonrt.set_Entity jsonrt.decode_string Builtin Doc Id Values].
  rewrite (decode_members_cons _ _ _ _ _ _ F_Id) by reflexivity.
  cbn [jsonrt.set_Entity jsonrt.decode_string Builtin Doc Id Values].
  rewrite (decode_members_cons _ _ _ _ _ _ F_Values) by reflexivity.
  cbn [jsonrt.set_Entity Builtin Doc Id Values].
  rewrite decode_encode_EntityValues. reflexivity.
Qed.

Lemma printable_strings (l : slice string) :
  valid_strings l = true -> printable (jsonrt.encode_strings l) = true.
Proof.
  destruct l as [xs|]; [|reflexivity]. simpl.
  induction xs as [|x xs IH]; simpl; [reflexivity|].
  intros H. apply andb_prop in H. destruct H as [Hx Hxs].
  now rewrite Hx, IH.
Qed.

Lemma printable_EntityValue (x : EntityValue) :
  valid_EntityValue x = true -> printable (jsonrt.encode_EntityValue x) = true.
Proof.
  unfold valid_EntityValue. intros H. apply andb_prop in H.
  destruct H as [Hv He]. cbn [jsonrt.encode_EntityValue printable forallb fst snd].
  rewrite Hv, (printable_strings _ He). reflexivity.
Qed.

Lemma printable_Entity (e : Entity) :
  valid_Entity e = true -> printable (jsonrt.encode_Entity e) = true.
Proof.
  unfold valid_Entity. intros H. apply andb_prop in H. destruct H as [H Hvs].
  apply andb_prop in H. destruct H as [Hd Hi].
  cbn [jsonrt.encode_Entity printable forallb fst snd].
  rewrite Hd, Hi.
  change (utf8.ValidString "builtin") with true.
  change (utf8.ValidString "doc") with true.
  change (utf8.ValidString "id") with true.
  change (utf8.ValidString "Values") with true.
  cbn [andb].
  destruct (Values e) as [vs|]; [|reflexivity].
  cbn [jsonrt.encode_EntityValues printable].
  rewrite andb_true_r.
  induction vs as [|x vs IH]; [reflexivity|].
  cbn [forallb List.map] in *. apply andb_prop in Hvs. destruct Hvs as [Hx Hr].
  now rewrite (printable_EntityValue x Hx), (IH Hr).
Qed.

(** The documents of entities.go nest four deep at most. *)
Lemma nesting_strings (l : slice string) :
  0 <= nesting (jsonrt.encode_strings l) <= 1.
Proof.
  destruct l as [xs|]; [|simpl; lia].
  cbn [jsonrt.encode_strings nesting].
  assert (H : List.fold_right (fun x a => Z.max (nesting x) a) 0
                              (List.map json.Str xs) = 0).
  { induction xs as [|x xs IH]; [reflexivity|].
    cbn [List.map List.fold_right nesting]. rewrite IH. reflexivity. }
  rewrite H. lia.
Qed.

Lemma nesting_EntityValue (x : EntityValue) :
  0 <= nesting (jsonrt.encode_EntityValue x) <= 2.
Proof.
  unfold jsonrt.encode_EntityValue.
  cbn [nesting List.fold_right snd].
  pose proof (nesting_strings (Expressions x)). lia.
Qed.

Lemma nesting_EntityValues (l : slice EntityValue) :
  0 <= nesting (jsonrt.encode_EntityValues l) <= 3.
Proof.
  destruct l as [xs|]; [|simpl; lia].
  cbn [jsonrt.encode_EntityValues nesting].
  assert (H : 0 <= List.fold_right (fun x a => Z.max (nesting x) a) 0
                     (List.map jsonrt.encode_EntityValue xs) <= 2).
  { induction xs as [|x xs IH]; [simpl; lia|].
    cbn [List.map List.fold_right].
    pose proof (nesting_EntityValue x). lia. }
  lia.
Qed.

Lemma nesting_Entity (e : Entity) :
  nesting (jsonrt.encode_Entity e) <= 4.
Proof.
  unfold jsonrt.encode_Entity.
  cbn [nesting List.fold_right snd].
  pose proof (nesting_EntityValues (Values e)). lia.
Qed.

Lemma parse_strings (l : slice string) :
  valid_strings l = true ->
  json.parse (json.print (jsonrt.encode_strings l))
  = Some (jsonrt.encode_strings l).
Proof.
  intros H. apply parse_print; [now apply printable_strings|].
  pose proof (nesting_strings l). unfold json.maxNestingDepth. lia.
Qed.

Lemma parse_EntityValue (x : EntityValue) :
  valid_EntityValue x = true ->
  json.parse (json.print (jsonrt.encode_EntityValue x))
  = Some (jsonrt.encode_EntityValue x).
Proof.
  intros H. apply parse_print; [now apply printable_EntityValue|].
  pose proof (nesting_EntityValue x). unfold json.maxNestingDepth. lia.
Qed.

Lemma parse_Entity (e : Entity) :
  valid_Entity e = true ->
  json.parse (json.print (jsonrt.encode_Entity e))
  = Some (jsonrt.encode_Entity e).
Proof.
  intros H. apply parse_print; [now apply printable_Entity|].
  pose proof (nesting_Entity e). unfold json.maxNestingDepth. lia.
Qed.

(** C7, for the entities whose strings are valid UTF-8: marshalling such
    an entity never fails, and parsing the bytes it gives returns an entity
    with the same builtin, doc, id and values, and a nil error. *)
Theorem C7_roundtrip_of_valid_utf8 (e : Entity)
        (He : valid_Entity e = true) :
  snd (jsonrt.Marshal_Entity (Some e)) = None
  /\ wit.parseEntity (fst (jsonrt.Marshal_Entity (Some e))) = (Some e, None).
Proof.
  split; [reflexivity|].
  unfold wit.parseEntity, jsonrt.Unmarshal_Entity, jsonrt.Unmarshal,
    jsonrt.Marshal_Entity.
  cbn [fst]. rewrite (parse_Entity e He).
  now rewrite decode_encode_Entity.
Qed.

Lemma C7_witness :
  valid_Entity favorite_city = true
  /\ wit.parseEntity (fst (jsonrt.Marshal_Entity (Some favorite_city)))
     = (Some favorite_city, None).
Proof.
  split.
  - reflexivity.
  - exact (proj2 (C7_roundtrip_of_valid_utf8 favorite_city eq_refl)).
Defined.

(** C7 as it is stated fails on a string that is not UTF-8: the encoder
    writes U+FFFD for the byte 0xFF, so the id that comes back is another
    string. The value list of this entity is well formed. *)
Lemma C7_invalid_utf8_is_not_preserved :
  exists e',
    wit.parseEntity (fst (jsonrt.Marshal_Entity (Some latin1_entity)))
    = (Some e', None)
    /\ Id e' = utf8.EncodeRune utf8.RuneError
    /\ Id e' <> Id latin1_entity
    /\ Values e' = Values latin1_entity.
Proof.
  eexists. split; [vm_compute; reflexivity|].
  repeat split. vm_compute. discriminate.
Qed.

(** ** The encoder adds to the string *)

Lemma DecodeRune_size_le (s : string) :
  (snd (utf8.DecodeRuneInString s) <= 4)%nat.
Proof.
  unfold utf8.DecodeRuneInString.
  repeat match goal with
         | |- context [if ?b then _ else _] => destruct b
         | |- context [match ?x with _ => _ end] => destruct x
         end; simpl; lia.
Qed.

(** The encoder never writes fewer bytes than the string has. *)
Lemma length_appendString_loop (k : nat) (s : string) :
  (String.length s <= k)%nat ->
  (String.length s <= String.length (json.appendString_loop k s))%nat.
Proof.
  revert s. induction k as [k IH] using lt_wf_ind. intros s Hle.
  rewrite appendString_loop_fuel by assumption.
  destruct s as [|c r]; [simpl; lia|].
  cbn [String.length] in *. cbn [json.appendString_loop].
  assert (IHr : forall x, (String.length x <= String.length r)%nat ->
                (String.length x
                 <= String.length
                      (json.appendString_loop (String.length r) x))%nat).
  { intros x Hx. rewrite appendString_loop_fuel by assumption.
    apply (IH (String.length x)); lia. }
  destruct (byte_val c <? utf8.RuneSelf) eqn:Ea.
  - rewrite length_append. specialize (IHr r (le_n _)).
    assert (1 <= String.length (if json.htmlSafe (byte_val c)
                                then String c EmptyString
                                else json.escape_byte c))%nat.
    { destruct (json.htmlSafe (byte_val c)); [simpl; lia|].
      unfold json.escape_byte.
      repeat match goal with
             | |- context [if ?b then _ else _] => destruct b
             end; simpl; lia. }
    lia.
  - destruct (utf8.DecodeRuneInString (String c r)) as [n size] eqn:Ed.
    destruct ((n =? utf8.RuneError) && (size =? 1)%nat)%bool eqn:Ev.
    + rewrite length_append. specialize (IHr r (le_n _)). simpl. lia.
    + assert (Hv : ~ (n = utf8.RuneError /\ size = 1%nat)).
      { intros [-> ->]. discriminate Ev. }
      apply Z.ltb_ge in Ea.
      destruct (DecodeRune_multibyte c r n size Ea Ed Hv)
        as (Hlen & Hsz & _ & Henc & _).
      assert (Hdrop : (String.length (drop_str size (String c r))
                       <= String.length r)%nat)
        by (rewrite length_drop_str; cbn [String.length]; lia).
      specialize (IHr _ Hdrop). rewrite length_drop_str in IHr at 1.
      cbn [String.length] in IHr.
      pose proof (DecodeRune_size_le (String c r)) as Hs4.
      rewrite Ed in Hs4. cbn [snd] in Hs4.
      destruct ((n =? 0x2028) || (n =? 0x2029))%bool;
        rewrite !length_append; [simpl | rewrite Hlen]; lia.
Qed.

Lemma appendString_adds_quotes (s : string) :
  json.print (json.Str s) <> s.
Proof.
  intros H. apply (f_equal String.length) in H.
  cbn [json.print] in H. unfold json.appendString in H.
  cbn [String.length] in H. rewrite length_append in H.
  pose proof (length_appendString_loop (String.length s) s (le_n _)).
  simpl in H. lia.
Qed.

(** ** One call per operation *)

Ltac run_op :=
  unfold run, wit.CreateEntity, wit.CreateEntityValue,
    wit.CreateEntityValueExp, wit.DeleteEntity, wit.DeleteEntityValue,
    wit.DeleteEntityValueExp, wit.Entities, wit.Entity, wit.UpdateEntity,
    wit.get, wit.post, wit.put, wit.delete, deref, read, perform, bind, ret,
    panic; simpl.

Ltac answer t :=
  match goal with
  | |- context [t ?c] =>
    let body := fresh "body" in
    let status := fresh "status" in
    let err := fresh "err" in
    destruct (t c) as [[body status] err] eqn:?; simpl
  end.

Section Frame.

Context {marshaler : wit.Marshaler}.

(** No operation writes to the store. *)
Lemma CreateEntity_heap client entity t w :
  heap (snd (wit.CreateEntity client entity t w)) = heap w.
Proof.
  run_op. destruct entity as [l|]; simpl.
  - destruct (PositiveMap.find l (entities (heap w))); simpl; [|reflexivity].
    destruct (wit.Marshal_Entity _) as [data e0]. answer t.
    destruct (negb _); reflexivity.
  - destruct (wit.Marshal_Entity _) as [data e0]. answer t.
    destruct (negb _); reflexivity.
Qed.

Lemma UpdateEntity_heap client entity t w :
  heap (snd (wit.UpdateEntity client entity t w)) = heap w.
Proof.
  run_op. destruct entity as [l|]; simpl.
  - destruct (PositiveMap.find l (entities (heap w))) eqn:E; simpl; [|reflexivity].
    destruct (wit.Marshal_Entity _) as [data e0]. rewrite E. simpl.
    answer t. destruct (negb _); reflexivity.
  - destruct (wit.Marshal_Entity _) as [data e0]. reflexivity.
Qed.

End Frame.

(** C8: [CreateEntity] and [UpdateEntity] leave the store as they found
    it, whatever the transport answers and whatever the serializer does:
    the entity behind the pointer, and every other object, has the same
    fields after the call as before. Their results are bytes and an
    error. *)
Theorem C8_create_update_do_not_mutate :
  forall (marshaler : wit.Marshaler) (client : wit.WitClient) (entity : ptr)
         (t : Transport) (h : Heap),
    heap (snd (run (wit.CreateEntity client entity) t h)) = h
    /\ heap (snd (run (wit.UpdateEntity client entity) t h)) = h
    /\ (forall l,
          PositiveMap.find l
            (entities (heap (snd (run (wit.CreateEntity client entity) t h))))
          = PositiveMap.find l (entities h))
    /\ (forall l,
          PositiveMap.find l
            (entities (heap (snd (run (wit.UpdateEntity client entity) t h))))
          = PositiveMap.find l (entities h)).
Proof.
  intros marshaler client entity t h. unfold run.
  pose proof (CreateEntity_heap client entity t {| heap := h; sent := nil |}) as Hc.
  pose proof (UpdateEntity_heap client entity t {| heap := h; sent := nil |}) as Hu.
  simpl in Hc, Hu. repeat split; try assumption.
  - intro l. now rewrite Hc.
  - intro l. now rewrite Hu.
Qed.

(** C5: [CreateEntityValueExp] makes exactly one call, a POST to the base
    URL followed by [/entities/{id}/values/{value}/expressions], and the
    body of that POST is the expression itself, byte for byte: it is not
    the JSON string the encoder would write for the expression. *)
Theorem C5_CreateEntityValueExp_posts_raw_expression :
  forall (client : wit.WitClient) (id value exp : string)
         (t : Transport) (h : Heap),
    sent (snd (run (wit.CreateEntityValueExp client id value exp) t h))
    = Post (wit.ApiBase client ++ "/entities/" ++ id ++ "/values/" ++ value
            ++ "/expressions") (Some exp) :: nil
    /\ Some exp <> Some (json.print (json.Str exp)).
Proof.
  intros client id value exp t h. split.
  - run_op. answer t.
    destruct (negb _); simpl; [reflexivity|].
    destruct (jsonrt.Unmarshal_Entity body zero_Entity) as [e [x|]];
      reflexivity.
  - intros H. injection H as H. symmetry in H.
    exact (appendString_adds_quotes exp H).
Qed.

(** ** Status codes and errors *)

Section Status.

Context {marshaler : wit.Marshaler}.

(** The seven operations that look at the status code return a nil
    result, and the error of the transport, when it is not 200. *)
Lemma CreateEntity_non200 client entity t h data e0 body status err :
  stored entities h entity = true ->
  wit.Marshal_Entity
    (match entity with
     | Some l => PositiveMap.find l (entities h)
     | None => None
     end) = (data, e0) ->
  t (Post (wit.ApiBase client ++ "/entities") data) = (body, status, err) ->
  status <> 200 ->
  fst (run (wit.CreateEntity client entity) t h) = Returned (None, err).
Proof.
  intros Hs Hm Ht Hne. run_op. simpl in Ht. destruct entity as [l|]; simpl in *.
  - destruct (PositiveMap.find l (entities h)); [|discriminate]. simpl.
    rewrite Hm, Ht. simpl.
    destruct (Z.eqb_spec status 200); [contradiction | reflexivity].
  - rewrite Hm, Ht. simpl.
    destruct (Z.eqb_spec status 200); [contradiction | reflexivity].
Qed.

Lemma UpdateEntity_non200 client l e t h data e0 body status err :
  PositiveMap.find l (entities h) = Some e ->
  wit.Marshal_Entity (Some e) = (data, e0) ->
  t (Put (wit.ApiBase client ++ "/entities/" ++ Id e) data)
  = (body, status, err) ->
  status <> 200 ->
  fst (run (wit.UpdateEntity client (Some l)) t h) = Returned (None, err).
Proof.
  intros Hl Hm Ht Hne. run_op. simpl in Ht. rewrite Hl. simpl. rewrite Hm. simpl.
  rewrite ?Hl. simpl. rewrite Ht. simpl.
  destruct (Z.eqb_spec status 200); [contradiction | reflexivity].
Qed.

Lemma CreateEntityValue_non200 client id entityValue t h data e0 body status err :
  stored entityValues h entityValue = true ->
  wit.Marshal_EntityValue
    (match entityValue with
     | Some l => PositiveMap.find l (entityValues h)
     | None => None
     end) = (data, e0) ->
  t (Post (wit.ApiBase client ++ "/entities/" ++ id ++ "/values") data)
  = (body, status, err) ->
  status <> 200 ->
  fst (run (wit.CreateEntityValue client id entityValue) t h)
  = Returned (None, err).
Proof.
  intros Hs Hm Ht Hne. run_op. simpl in Ht. destruct entityValue as [l|]; simpl in *.
  - destruct (PositiveMap.find l (entityValues h)); [|discriminate]. simpl.
    rewrite Hm, Ht. simpl.
    destruct (Z.eqb_spec status 200); [contradiction | reflexivity].
  - rewrite Hm, Ht. simpl.
    destruct (Z.eqb_spec status 200); [contradiction | reflexivity].
Qed.

Lemma CreateEntityValueExp_non200 client id value exp t h body status err :
  t (Post (wit.ApiBase client ++ "/entities/" ++ id ++ "/values/" ++ value
           ++ "/expressions") (Some exp)) = (body, status, err) ->
  status <> 200 ->
  fst (run (wit.CreateEntityValueExp client id value exp) t h)
  = Returned (None, err).
Proof.
  intros Ht Hne. run_op. simpl in Ht. rewrite Ht. simpl.
  destruct (Z.eqb_spec status 200); [contradiction | reflexivity].
Qed.

Lemma DeleteEntity_non200 client id t h body status err :
  t (Delete (wit.ApiBase client ++ "/entities/") id) = (body, status, err) ->
  status <> 200 ->
  fst (run (wit.DeleteEntity client id) t h) = Returned (None, err).
Proof.
  intros Ht Hne. run_op. simpl in Ht. rewrite Ht. simpl.
  destruct (Z.eqb_spec status 200); [contradiction | reflexivity].
Qed.

Lemma DeleteEntityValue_non200 client id value t h body status err :
  t (Delete (wit.ApiBase client ++ "/entities/") (id ++ "/values/" ++ value))
  = (body, status, err) ->
  status <> 200 ->
  fst (run (wit.DeleteEntityValue client id value) t h) = Returned (None, err).
Proof.
  intros Ht Hne. run_op. simpl in Ht. rewrite Ht. simpl.
  destruct (Z.eqb_spec status 200); [contradiction | reflexivity].
Qed.

Lemma DeleteEntityValueExp_non200 client id value exp t h body status err :
  t (Delete (wit.ApiBase client ++ "/entities/")
            (id ++ "/values/" ++ value ++ "/expression/"
             ++ url.QueryEscape exp)) = (body, status, err) ->
  status <> 200 ->
  fst (run (wit.DeleteEntityValueExp client id value exp) t h)
  = Returned (None, err).
Proof.
  intros Ht Hne. run_op. simpl in Ht. rewrite Ht. simpl.
  destruct (Z.eqb_spec status 200); [contradiction | reflexivity].
Qed.

End Status.

(** C1, at the inputs where the code departs from it: [Entities] and
    [Entity] never look at the status code. With a 404 and a nil error from
    the transport, [Entities] returns the list parsed from the body, and
    [Entity] returns an entity built from the body (a zero-valued one from
    an error document). *)
Theorem C1_get_operations_ignore_status :
  fst (run (wit.Entities api) (always (Some two_entities, 404, None)) empty_heap)
  = Returned (Some (Some ("wit$temperature" :: "favorite_city" :: nil)), None)
  /\ fst (run (wit.Entity api "favorite_city")
              (always (Some favorite_city_text, 404, None)) empty_heap)
     = Returned (Some favorite_city, None)
  /\ fst (run (wit.Entity api "nobody")
              (always (Some not_found_text, 404, None)) empty_heap)
     = Returned (Some zero_Entity, None).
Proof. repeat split; vm_compute; reflexivity. Qed.

(** C2, at an input where the code departs from it: on a body that is no
    JSON document the parsers report an error, and [Entities] and [Entity]
    drop it: the caller gets a nil result and a nil error. *)
Theorem C2_parse_error_is_dropped :
  snd (wit.parseEntities (Some "{")) <> None
  /\ snd (wit.parseEntity (Some "{")) <> None
  /\ fst (run (wit.Entities api) (always (Some "{", 200, None)) empty_heap)
     = Returned (None, None)
  /\ fst (run (wit.Entity api "favorite_city")
              (always (Some "{", 200, None)) empty_heap)
     = Returned (None, None).
Proof. repeat split; vm_compute; congruence. Qed.

(** The error of the marshal step never reaches the caller: the next
    statement assigns the error of the transport to the same variable. *)
Lemma CreateEntity_result_from_transport
      (marshaler : wit.Marshaler) client t h body status err :
  t (Post (wit.ApiBase client ++ "/entities") (fst (wit.Marshal_Entity None)))
  = (body, status, err) ->
  fst (run (wit.CreateEntity client None) t h)
  = Returned (if status =? 200 then (body, None) else (None, err)).
Proof.
  intros Ht. run_op. simpl in Ht. destruct (wit.Marshal_Entity None) as [data e0].
  simpl in *. rewrite Ht. simpl. destruct (status =? 200); reflexivity.
Qed.

(** [json.Marshal] never fails on the types of entities.go: a bool,
    strings and slices of them are all it has to write, so the error of
    the marshal step is nil for every entity and entity value. *)
Lemma Marshal_Entity_never_fails (v : option Entity) :
  snd (jsonrt.Marshal_Entity v) = None.
Proof. reflexivity. Qed.

Lemma Marshal_EntityValue_never_fails (v : option EntityValue) :
  snd (jsonrt.Marshal_EntityValue v) = None.
Proof. reflexivity. Qed.

(** C9: when the transport returns a nil error, [Entities] and [Entity]
    return a nil error, whatever the status code and the body; when the
    body does not parse, the result is nil as well. *)
Theorem C9_get_operations_return_nil_error
        (client : wit.WitClient) (id : string) (t : Transport) (h : Heap)
        (body1 body2 : bytes) (status1 status2 : Z)
        (Hlist : t (Get (wit.ApiBase client ++ "/entities"))
                 = (body1, status1, None))
        (Hone : t (Get (wit.ApiBase client ++ "/entities/" ++ id))
                = (body2, status2, None)) :
  (exists r, fst (run (wit.Entities client) t h) = Returned (r, None))
  /\ (exists r, fst (run (wit.Entity client id) t h) = Returned (r, None))
  /\ (snd (wit.parseEntities body1) <> None ->
      fst (run (wit.Entities client) t h) = Returned (None, None))
  /\ (snd (wit.parseEntity body2) <> None ->
      fst (run (wit.Entity client id) t h) = Returned (None, None)).
Proof.
  simpl in Hlist, Hone. repeat split.
  - run_op. rewrite Hlist. simpl.
    destruct (wit.parseEntities body1) as [r e]. now exists r.
  - run_op. rewrite Hone. simpl.
    destruct (wit.parseEntity body2) as [r e]. now exists r.
  - intros Hp. run_op. rewrite Hlist. simpl.
    unfold wit.parseEntities in *.
    destruct (jsonrt.Unmarshal_Entities body1 (Some nil)) as [r [e|]];
      simpl in *; [reflexivity | contradiction].
  - intros Hp. run_op. rewrite Hone. simpl.
    unfold wit.parseEntity in *.
    destruct (jsonrt.Unmarshal_Entity body2 zero_Entity) as [r [e|]];
      simpl in *; [reflexivity | contradiction].
Qed.

Lemma C9_witness :
  snd (wit.parseEntities (Some "not json")) <> None
  /\ snd (wit.parseEntity (Some "not json")) <> None
  /\ fst (run (wit.Entities api) (always (Some "not json", 500, None)) empty_heap)
     = Returned (None, None)
  /\ fst (run (wit.Entity api "favorite_city")
              (always (Some "not json", 500, None)) empty_heap)
     = Returned (None, None).
Proof.
  assert (H1 : snd (wit.parseEntities (Some "not json")) <> None)
    by (vm_compute; congruence).
  assert (H2 : snd (wit.parseEntity (Some "not json")) <> None)
    by (vm_compute; congruence).
  destruct (C9_get_operations_return_nil_error api "favorite_city"
              (always (Some "not json", 500, None)) empty_heap
              (Some "not json") (Some "not json") 500 500
              eq_refl eq_refl) as (_ & _ & Ha & Hb).
  exact (conj H1 (conj H2 (conj (Ha H1) (Hb H2)))).
Defined.

(** ** Requests *)

Section Requests.

Context {marshaler : wit.Marshaler}.

Lemma CreateEntityValue_issues client id entityValue t h :
  stored entityValues h entityValue = true ->
  issues (wit.CreateEntityValue client id entityValue) t h
         (Post (wit.ApiBase client ++ "/entities/" ++ id ++ "/values")
               (fst (wit.Marshal_EntityValue
                       (match entityValue with
                        | Some l => PositiveMap.find l (entityValues h)
                        | None => None
                        end)))).
Proof.
  intros Hs. unfold issues. run_op. destruct entityValue as [l|]; simpl in *.
  - destruct (PositiveMap.find l (entityValues h)); [|discriminate]. simpl.
    destruct (wit.Marshal_EntityValue _) as [data e0]. simpl. answer t.
    destruct (negb _); simpl; [eexists; reflexivity|].
    destruct (jsonrt.Unmarshal_Entity body zero_Entity) as [ent [x|]];
      eexists; reflexivity.
  - destruct (wit.Marshal_EntityValue _) as [data e0]. simpl. answer t.
    destruct (negb _); simpl; [eexists; reflexivity|].
    destruct (jsonrt.Unmarshal_Entity body zero_Entity) as [ent [x|]];
      eexists; reflexivity.
Qed.

Lemma CreateEntityValueExp_issues client id value exp t h :
  issues (wit.CreateEntityValueExp client id value exp) t h
         (Post (wit.ApiBase client ++ "/entities/" ++ id ++ "/values/" ++ value
                ++ "/expressions") (Some exp)).
Proof.
  unfold issues. run_op. answer t.
  destruct (negb _); simpl; [eexists; reflexivity|].
  destruct (jsonrt.Unmarshal_Entity body zero_Entity) as [ent [x|]];
    eexists; reflexivity.
Qed.

Lemma DeleteEntity_issues client id t h :
  issues (wit.DeleteEntity client id) t h
         (Delete (wit.ApiBase client ++ "/entities/") id).
Proof.
  unfold issues. run_op. answer t. destruct (negb _); eexists; reflexivity.
Qed.

Lemma DeleteEntityValue_issues client id value t h :
  issues (wit.DeleteEntityValue client id value) t h
         (Delete (wit.ApiBase client ++ "/entities/") (id ++ "/values/" ++ value)).
Proof.
  unfold issues. run_op. answer t. destruct (negb _); eexists; reflexivity.
Qed.

Lemma DeleteEntityValueExp_issues client id value exp t h :
  issues (wit.DeleteEntityValueExp client id value exp) t h
         (Delete (wit.ApiBase client ++ "/entities/")
                 (id ++ "/values/" ++ value ++ "/expression/"
                  ++ url.QueryEscape exp)).
Proof.
  unfold issues. run_op. answer t. destruct (negb _); eexists; reflexivity.
Qed.

Lemma Entity_issues client id t h :
  issues (wit.Entity client id) t h
         (Get (wit.ApiBase client ++ "/entities/" ++ id)).
Proof.
  unfold issues. run_op. answer t. destruct err; simpl; [eexists; reflexivity|].
  destruct (wit.parseEntity body) as [ent x]. eexists; reflexivity.
Qed.

End Requests.

(** C10: no operation checks that a string argument is non-empty. For
    every id, value and expression, the empty string included, each
    operation returns after one call whose URL is the concatenation of the
    base, the fixed segments and the arguments as given. [DeleteEntity] of
    the empty id asks for [/entities/] and [CreateEntityValue] posts to
    [/entities//values]. *)
Theorem C10_no_check_on_empty_strings
        (marshaler : wit.Marshaler) (client : wit.WitClient)
        (id value exp : string) (entityValue : ptr) (t : Transport) (h : Heap)
        (Hv : stored entityValues h entityValue = true) :
  issues (wit.DeleteEntity client id) t h
         (Delete (wit.ApiBase client ++ "/entities/") id)
  /\ issues (wit.DeleteEntityValue client id value) t h
            (Delete (wit.ApiBase client ++ "/entities/")
                    (id ++ "/values/" ++ value))
  /\ issues (wit.DeleteEntityValueExp client id value exp) t h
            (Delete (wit.ApiBase client ++ "/entities/")
                    (id ++ "/values/" ++ value ++ "/expression/"
                     ++ url.QueryEscape exp))
  /\ issues (wit.CreateEntityValueExp client id value exp) t h
            (Post (wit.ApiBase client ++ "/entities/" ++ id ++ "/values/"
                   ++ value ++ "/expressions") (Some exp))
  /\ issues (wit.Entity client id) t h
            (Get (wit.ApiBase client ++ "/entities/" ++ id))
  /\ (exists data,
        issues (wit.CreateEntityValue client id entityValue) t h
               (Post (wit.ApiBase client ++ "/entities/" ++ id ++ "/values")
                     data))
  /\ List.map target
       (sent (snd (run (wit.DeleteEntity client EmptyString) t h)))
     = (wit.ApiBase client ++ "/entities/") :: nil
  /\ List.map target
       (sent (snd (run (wit.CreateEntityValue client EmptyString entityValue) t h)))
     = (wit.ApiBase client ++ "/entities//values") :: nil.
Proof.
  repeat split.
  - apply DeleteEntity_issues.
  - apply DeleteEntityValue_issues.
  - apply DeleteEntityValueExp_issues.
  - apply CreateEntityValueExp_issues.
  - apply Entity_issues.
  - eexists. apply CreateEntityValue_issues. exact Hv.
  - destruct (DeleteEntity_issues client EmptyString t h) as [r Hr]. rewrite Hr.
    simpl. now rewrite append_nil_r.
  - destruct (CreateEntityValue_issues client EmptyString entityValue t h Hv) as [r Hr].
    rewrite Hr. reflexivity.
Qed.

Lemma C10_witness :
  issues (wit.DeleteEntity api EmptyString) (always (None, 200, None))
         (one_value_heap zero_EntityValue)
         (Delete "https://api.wit.ai/entities/" EmptyString)
  /\ issues (wit.CreateEntityValue api EmptyString (Some 1%positive))
            (always (None, 404, None)) (one_value_heap zero_EntityValue)
            (Post "https://api.wit.ai/entities//values"
                  (fst (jsonrt.Marshal_EntityValue (Some zero_EntityValue)))).
Proof.
  split.
  - exact (proj1 (C10_no_check_on_empty_strings
                    wit.encoding_json api EmptyString EmptyString EmptyString (Some 1%positive)
                    (always (None, 200, None))
                    (one_value_heap zero_EntityValue) eq_refl)).
  - exact (@CreateEntityValue_issues wit.encoding_json api EmptyString (Some 1%positive)
             (always (None, 404, None)) (one_value_heap zero_EntityValue)
             eq_refl).
Defined.

(** What [url.QueryEscape] does with one byte. *)
Lemma QueryEscape_cons (c : ascii) (r : string) :
  url.QueryEscape (String c r)
  = (if Ascii.eqb c " " then "+" else percent_encode (String c EmptyString))
    ++ url.QueryEscape r.
Proof.
  cbn [url.QueryEscape percent_encode].
  destruct (Ascii.eqb c " "); [reflexivity|].
  now rewrite append_nil_r.
Qed.

(** Where there is no space, it is percent-encoding. *)
Lemma QueryEscape_without_space (s : string) :
  str_mem " " s = false -> url.QueryEscape s = percent_encode s.
Proof.
  induction s as [|c s IH]; [reflexivity|].
  cbn [url.QueryEscape percent_encode str_mem]. intros H.
  apply orb_false_iff in H. destruct H as [Hc Hs].
  rewrite (Ascii.eqb_sym c " "), Hc, (IH Hs). reflexivity.
Qed.

(** C4, as the code has it: [DeleteEntityValueExp] makes one call, a
    DELETE of [/entities/{id}/values/{value}/expression/{e}] under the
    base, with the singular [expression], where [{e}] is
    [url.QueryEscape] of the expression: a space becomes [+], every other
    byte is percent-encoded. For the empty expression [{e}] is empty and
    the path ends in [expression/]. *)
Theorem C4_DeleteEntityValueExp_query_escapes :
  forall (client : wit.WitClient) (id value exp : string)
         (t : Transport) (h : Heap),
    issues (wit.DeleteEntityValueExp client id value exp) t h
           (Delete (wit.ApiBase client ++ "/entities/")
                   (id ++ "/values/" ++ value ++ "/expression/"
                    ++ url.QueryEscape exp))
    /\ List.map target
         (sent (snd (run (wit.DeleteEntityValueExp client id value exp) t h)))
       = (wit.ApiBase client ++ "/entities/" ++ id ++ "/values/" ++ value
          ++ "/expression/" ++ url.QueryEscape exp) :: nil
    /\ List.map target
         (sent (snd (run (wit.DeleteEntityValueExp client id value EmptyString) t h)))
       = (wit.ApiBase client ++ "/entities/" ++ id ++ "/values/" ++ value
          ++ "/expression/") :: nil
    /\ url.QueryEscape EmptyString = EmptyString
    /\ (forall c r,
          url.QueryEscape (String c r)
          = (if Ascii.eqb c " " then "+"
             else percent_encode (String c EmptyString))
            ++ url.QueryEscape r).
Proof.
  intros client id value exp t h. repeat split.
  - apply DeleteEntityValueExp_issues.
  - destruct (DeleteEntityValueExp_issues client id value exp t h) as [r Hr].
    rewrite Hr. simpl. now rewrite append_assoc.
  - destruct (DeleteEntityValueExp_issues client id value EmptyString t h) as [r Hr].
    rewrite Hr. simpl. now rewrite append_assoc.
  - apply QueryEscape_cons.
Qed.

(** C4 as it is stated fails where the expression has a space: the path
    the code asks for ends in [City+of+Light], the percent-encoding of the
    expression is [City%20of%20Light]. *)
Lemma C4_space_is_not_percent_encoded :
  List.map target
    (sent (snd (run (wit.DeleteEntityValueExp api "favorite_city" "Paris"
                                              "City of Light")
                    (always (None, 200, None)) empty_heap)))
  <> (wit.ApiBase api ++ "/entities/" ++ "favorite_city" ++ "/values/"
      ++ "Paris" ++ "/expression/" ++ percent_encode "City of Light") :: nil.
Proof. vm_compute. discriminate. Qed.

(** ** Listing *)

Lemma decode_strings_elems (names cur : list string) :
  jsonrt.decode_elems EmptyString jsonrt.decode_string cur
                      (List.map json.Str names)
  = (names, None).
Proof.
  revert cur. induction names as [|n names IH]; intros cur; simpl.
  - reflexivity.
  - destruct cur as [|x cur]; rewrite IH; reflexivity.
Qed.

(** A list of valid UTF-8 strings, as the encoder writes it, is such a
    body. *)
Lemma parse_marshalled_names (names : list string) :
  forallb utf8.ValidString names = true ->
  json.parse (json.print (json.Array (List.map json.Str names)))
  = Some (json.Array (List.map json.Str names)).
Proof.
  intros H. exact (parse_strings (Some names) H).
Qed.



(** * Further properties of the operations *)

(** ** What the operations return *)

(** X1: the seven operations that test the status code return a nil result
    and the error the transport returned for the call they made, whatever
    the body, whenever the status is not 200. The error may be nil. *)
Theorem X1_status_not_200_gives_nil_result
        (marshaler : wit.Marshaler) (client : wit.WitClient)
        (id value exp : string) (l : loc) (e : Entity) (entityValue : ptr)
        (t : Transport) (h : Heap)
        (Hstatus : forall c, snd (fst (t c)) <> 200)
        (He : PositiveMap.find l (entities h) = Some e)
        (Hv : stored entityValues h entityValue = true) :
  fst (run (wit.CreateEntity client (Some l)) t h)
  = Returned (None, snd (t (Post (wit.ApiBase client ++ "/entities")
                                  (fst (wit.Marshal_Entity (Some e))))))
  /\ fst (run (wit.UpdateEntity client (Some l)) t h)
     = Returned (None, snd (t (Put (wit.ApiBase client ++ "/entities/" ++ Id e)
                                   (fst (wit.Marshal_Entity (Some e))))))
  /\ fst (run (wit.CreateEntityValue client id entityValue) t h)
     = Returned (None,
                 snd (t (Post (wit.ApiBase client ++ "/entities/" ++ id
                               ++ "/values")
                              (fst (wit.Marshal_EntityValue
                                      (pointee entityValues h entityValue))))))
  /\ fst (run (wit.CreateEntityValueExp client id value exp) t h)
     = Returned (None, snd (t (Post (wit.ApiBase client ++ "/entities/" ++ id
                                      ++ "/values/" ++ value ++ "/expressions")
                                     (Some exp))))
  /\ fst (run (wit.DeleteEntity client id) t h)
     = Returned (None, snd (t (Delete (wit.ApiBase client ++ "/entities/") id)))
  /\ fst (run (wit.DeleteEntityValue client id value) t h)
     = Returned (None, snd (t (Delete (wit.ApiBase client ++ "/entities/")
                                      (id ++ "/values/" ++ value))))
  /\ fst (run (wit.DeleteEntityValueExp client id value exp) t h)
     = Returned (None, snd (t (Delete (wit.ApiBase client ++ "/entities/")
                                      (id ++ "/values/" ++ value
                                       ++ "/expression/"
                                       ++ url.QueryEscape exp)))).
Proof.
  assert (Hall : forall c body status err,
             t c = (body, status, err) -> status <> 200).
  { intros c body status err Hc. specialize (Hstatus c). rewrite Hc in *.
    assumption. }
  repeat split.
  - destruct (wit.Marshal_Entity (Some e)) as [data e0] eqn:Hm. cbn [fst].
    destruct (t (Post (wit.ApiBase client ++ "/entities") data))
      as [[body status] err] eqn:Ht.
    pose proof (Hall _ _ _ _ Ht) as Hne. cbn [snd].
    apply (CreateEntity_non200 client (Some l) t h data e0 body status err);
      simpl; rewrite ?He; auto.
  - destruct (wit.Marshal_Entity (Some e)) as [data e0] eqn:Hm. cbn [fst].
    destruct (t (Put (wit.ApiBase client ++ "/entities/" ++ Id e) data))
      as [[body status] err] eqn:Ht.
    pose proof (Hall _ _ _ _ Ht) as Hne. cbn [snd].
    now apply (UpdateEntity_non200 client l e t h data e0 body status err).
  - unfold pointee.
    destruct (wit.Marshal_EntityValue
                (match entityValue with
                 | Some l0 => PositiveMap.find l0 (entityValues h)
                 | None => None
                 end)) as [data e0] eqn:Hm. cbn [fst].
    destruct (t (Post (wit.ApiBase client ++ "/entities/" ++ id ++ "/values")
                      data)) as [[body status] err] eqn:Ht.
    pose proof (Hall _ _ _ _ Ht) as Hne. cbn [snd].
    now apply (CreateEntityValue_non200 client id entityValue t h data e0
                 body status err).
  - match goal with |- context [t ?c] =>
      destruct (t c) as [[body status] err] eqn:Ht end.
    pose proof (Hall _ _ _ _ Ht) as Hne. cbn [snd].
    now apply (CreateEntityValueExp_non200 client id value exp t h body status).
  - match goal with |- context [t ?c] =>
      destruct (t c) as [[body status] err] eqn:Ht end.
    pose proof (Hall _ _ _ _ Ht) as Hne. cbn [snd].
    now apply (DeleteEntity_non200 client id t h body status).
  - match goal with |- context [t ?c] =>
      destruct (t c) as [[body status] err] eqn:Ht end.
    pose proof (Hall _ _ _ _ Ht) as Hne. cbn [snd].
    now apply (DeleteEntityValue_non200 client id value t h body status).
  - match goal with |- context [t ?c] =>
      destruct (t c) as [[body status] err] eqn:Ht end.
    pose proof (Hall _ _ _ _ Ht) as Hne. cbn [snd].
    now apply (DeleteEntityValueExp_non200 client id value exp t h body status).
Qed.

Lemma X1_witness :
  fst (run (wit.CreateEntity api (Some 1%positive))
           (always (Some favorite_city_text, 500,
                    Some (TransportError "refused")))
           (one_entity_heap favorite_city))
  = Returned (None, Some (TransportError "refused"))
  /\ fst (run (wit.CreateEntityValue api "favorite_city" None)
              (always (Some favorite_city_text, 500,
                       Some (TransportError "refused")))
              (one_entity_heap favorite_city))
     = Returned (None, Some (TransportError "refused"))
  /\ fst (run (wit.DeleteEntity api "favorite_city")
              (always (Some favorite_city_text, 500,
                       Some (TransportError "refused")))
              (one_entity_heap favorite_city))
     = Returned (None, Some (TransportError "refused")).
Proof.
  destruct (X1_status_not_200_gives_nil_result
              wit.encoding_json api "favorite_city" "Paris" "City of Light"
              1%positive favorite_city None
              (always (Some favorite_city_text, 500,
                       Some (TransportError "refused")))
              (one_entity_heap favorite_city))
    as (H1 & _ & H3 & _ & H5 & _).
  - intros c. simpl. lia.
  - reflexivity.
  - reflexivity.
  - split; [exact H1 | split; [exact H3 | exact H5]].
Defined.

(** X2: an error of the transport's GET comes back from [Entities] and
    [Entity] as it is, with a nil result, whatever the body and the status
    are, a 200 with a good document included. *)
Theorem X2_get_error_is_returned
        (client : wit.WitClient) (id : string) (t : Transport) (h : Heap)
        (body1 body2 : bytes) (status1 status2 : Z) (err1 err2 : GoError)
        (Hlist : t (Get (wit.ApiBase client ++ "/entities"))
                 = (body1, status1, Some err1))
        (Hone : t (Get (wit.ApiBase client ++ "/entities/" ++ id))
                = (body2, status2, Some err2)) :
  fst (run (wit.Entities client) t h) = Returned (None, Some err1)
  /\ fst (run (wit.Entity client id) t h) = Returned (None, Some err2).
Proof.
  simpl in Hlist, Hone. split; run_op.
  - now rewrite Hlist.
  - now rewrite Hone.
Qed.

Lemma X2_witness :
  fst (run (wit.Entities api)
           (always (Some two_entities, 200, Some (TransportError "timeout")))
           empty_heap)
  = Returned (None, Some (TransportError "timeout"))
  /\ fst (run (wit.Entity api "favorite_city")
              (always (Some two_entities, 200, Some (TransportError "timeout")))
              empty_heap)
     = Returned (None, Some (TransportError "timeout")).
Proof.
  exact (X2_get_error_is_returned api "favorite_city"
           (always (Some two_entities, 200, Some (TransportError "timeout")))
           empty_heap (Some two_entities) (Some two_entities) 200 200
           (TransportError "timeout") (TransportError "timeout")
           eq_refl eq_refl).
Defined.

(** X3: with the status 200 the five operations that return bytes give the
    body of the response and a nil error; an error the transport returned
    beside the 200 is dropped. *)
Theorem X3_status_200_gives_body_and_nil_error
        (marshaler : wit.Marshaler) (client : wit.WitClient)
        (id value exp : string) (l : loc) (e : Entity)
        (t : Transport) (h : Heap)
        (Hstatus : forall c, snd (fst (t c)) = 200)
        (He : PositiveMap.find l (entities h) = Some e) :
  fst (run (wit.CreateEntity client (Some l)) t h)
  = Returned (fst (fst (t (Post (wit.ApiBase client ++ "/entities")
                                (fst (wit.Marshal_Entity (Some e)))))), None)
  /\ fst (run (wit.UpdateEntity client (Some l)) t h)
     = Returned (fst (fst (t (Put (wit.ApiBase client ++ "/entities/" ++ Id e)
                                  (fst (wit.Marshal_Entity (Some e)))))), None)
  /\ fst (run (wit.DeleteEntity client id) t h)
     = Returned (fst (fst (t (Delete (wit.ApiBase client ++ "/entities/") id))),
                 None)
  /\ fst (run (wit.DeleteEntityValue client id value) t h)
     = Returned (fst (fst (t (Delete (wit.ApiBase client ++ "/entities/")
                                     (id ++ "/values/" ++ value)))), None)
  /\ fst (run (wit.DeleteEntityValueExp client id value exp) t h)
     = Returned (fst (fst (t (Delete (wit.ApiBase client ++ "/entities/")
                                     (id ++ "/values/" ++ value
                                      ++ "/expression/"
                                      ++ url.QueryEscape exp)))), None).
Proof.
  repeat split; run_op; rewrite ?He; simpl;
    try (destruct (wit.Marshal_Entity (Some e)) as [data e0]; simpl;
         rewrite ?He; simpl);
    match goal with |- context [t ?c] =>
      let Ht := fresh "Ht" in
      pose proof (Hstatus c) as Ht;
      destruct (t c) as [[body status] err]; simpl in Ht; subst status
    end; reflexivity.
Qed.

Lemma X3_witness :
  fst (run (wit.DeleteEntity api "favorite_city")
           (always (Some "deleted", 200, Some (TransportError "closed")))
           (one_entity_heap favorite_city))
  = Returned (Some "deleted", None).
Proof.
  refine (proj1 (proj2 (proj2
           (X3_status_200_gives_body_and_nil_error
              wit.encoding_json api "favorite_city" "Paris" "City of Light"
              1%positive favorite_city
              (always (Some "deleted", 200, Some (TransportError "closed")))
              (one_entity_heap favorite_city) _ _)))).
  - intros c. reflexivity.
  - reflexivity.
Defined.

(** X4: with the status 200, [CreateEntityValue] and
    [CreateEntityValueExp] return what [parseEntity] returns for the body:
    the entity and a nil error, or nil and the error of the decoder. *)
Theorem X4_create_value_returns_parsed_body
        (marshaler : wit.Marshaler) (client : wit.WitClient)
        (id value exp : string) (entityValue : ptr)
        (t : Transport) (h : Heap)
        (Hstatus : forall c, snd (fst (t c)) = 200)
        (Hv : stored entityValues h entityValue = true) :
  fst (run (wit.CreateEntityValue client id entityValue) t h)
  = Returned (wit.parseEntity
                (fst (fst (t (Post (wit.ApiBase client ++ "/entities/" ++ id
                                    ++ "/values")
                                   (fst (wit.Marshal_EntityValue
                                           (pointee entityValues h
                                                    entityValue))))))))
  /\ fst (run (wit.CreateEntityValueExp client id value exp) t h)
     = Returned (wit.parseEntity
                   (fst (fst (t (Post (wit.ApiBase client ++ "/entities/" ++ id
                                       ++ "/values/" ++ value ++ "/expressions")
                                      (Some exp)))))).
Proof.
  split.
  - unfold pointee. run_op. unfold wit.parseEntity.
    destruct entityValue as [l|]; simpl in *.
    + destruct (PositiveMap.find l (entityValues h)); [|discriminate]. simpl.
      destruct (wit.Marshal_EntityValue _) as [data e0]. simpl.
      match goal with |- context [t ?c] =>
        pose proof (Hstatus c) as Ht;
        destruct (t c) as [[body status] err]; simpl in Ht; subst status
      end. simpl.
      destruct (jsonrt.Unmarshal_Entity body zero_Entity) as [ent [x|]];
        reflexivity.
    + destruct (wit.Marshal_EntityValue _) as [data e0]. simpl.
      match goal with |- context [t ?c] =>
        pose proof (Hstatus c) as Ht;
        destruct (t c) as [[body status] err]; simpl in Ht; subst status
      end. simpl.
      destruct (jsonrt.Unmarshal_Entity body zero_Entity) as [ent [x|]];
        reflexivity.
  - run_op. unfold wit.parseEntity.
    match goal with |- context [t ?c] =>
      pose proof (Hstatus c) as Ht;
      destruct (t c) as [[body status] err]; simpl in Ht; subst status
    end. simpl.
    destruct (jsonrt.Unmarshal_Entity body zero_Entity) as [ent [x|]];
      reflexivity.
Qed.

Lemma X4_witness :
  fst (run (wit.CreateEntityValueExp api "favorite_city" "Paris" "City of Light")
           (always (Some favorite_city_text, 200, None)) empty_heap)
  = Returned (Some favorite_city, None).
Proof.
  refine (eq_trans
            (proj2 (X4_create_value_returns_parsed_body
                      wit.encoding_json api "favorite_city" "Paris"
                      "City of Light" None
                      (always (Some favorite_city_text, 200, None))
                      empty_heap _ _)) _).
  - intros c. reflexivity.
  - reflexivity.
  - vm_compute. reflexivity.
Defined.

(** X5: a nil pointer. [CreateEntity] and [CreateEntityValue] send the
    document [null] and go on as for any other body; [UpdateEntity] panics
    on the field [Id] of the nil entity, after the marshalling and before
    any request is made. *)
Theorem X5_nil_pointer :
  forall (client : wit.WitClient) (id : string) (t : Transport) (h : Heap),
    issues (wit.CreateEntity client None) t h
           (Post (wit.ApiBase client ++ "/entities") (Some "null"))
    /\ issues (wit.CreateEntityValue client id None) t h
              (Post (wit.ApiBase client ++ "/entities/" ++ id ++ "/values")
                    (Some "null"))
    /\ run (wit.UpdateEntity client None) t h
       = (Panicked nil_deref, {| heap := h; sent := nil |}).
Proof.
  intros client id t h. unfold issues. repeat split.
  - run_op. answer t. destruct (negb _); eexists; reflexivity.
  - run_op. answer t. destruct (negb _); simpl; [eexists; reflexivity|].
    destruct (jsonrt.Unmarshal_Entity body zero_Entity) as [ent [x|]];
      eexists; reflexivity.
Qed.

(** X6: no operation returns a result together with an error: when the
    result is not nil the error is nil. *)
Theorem X6_never_a_result_and_an_error :
  forall (marshaler : wit.Marshaler) (client : wit.WitClient)
         (id value exp : string) (entity entityValue : ptr)
         (t : Transport) (h : Heap),
    result_or_error (fst (run (wit.CreateEntity client entity) t h))
    /\ result_or_error (fst (run (wit.CreateEntityValue client id entityValue) t h))
    /\ result_or_error (fst (run (wit.CreateEntityValueExp client id value exp) t h))
    /\ result_or_error (fst (run (wit.DeleteEntity client id) t h))
    /\ result_or_error (fst (run (wit.DeleteEntityValue client id value) t h))
    /\ result_or_error (fst (run (wit.DeleteEntityValueExp client id value exp) t h))
    /\ result_or_error (fst (run (wit.Entities client) t h))
    /\ result_or_error (fst (run (wit.Entity client id) t h))
    /\ result_or_error (fst (run (wit.UpdateEntity client entity) t h)).
Proof.
  intros marshaler client id value exp entity entityValue t h.
  unfold result_or_error. repeat split.
  - run_op. destruct entity as [l|]; simpl.
    + destruct (PositiveMap.find l (entities h)); simpl; [|exact I].
      destruct (wit.Marshal_Entity _) as [data e0]. simpl. answer t.
      destruct (negb _); simpl; [exact I|]. now destruct body.
    + destruct (wit.Marshal_Entity _) as [data e0]. simpl. answer t.
      destruct (negb _); simpl; [exact I|]. now destruct body.
  - run_op. destruct entityValue as [l|]; simpl.
    + destruct (PositiveMap.find l (entityValues h)); simpl; [|exact I].
      destruct (wit.Marshal_EntityValue _) as [data e0]. simpl. answer t.
      destruct (negb _); simpl; [exact I|].
      destruct (jsonrt.Unmarshal_Entity body zero_Entity) as [ent [x|]];
        exact I.
    + destruct (wit.Marshal_EntityValue _) as [data e0]. simpl. answer t.
      destruct (negb _); simpl; [exact I|].
      destruct (jsonrt.Unmarshal_Entity body zero_Entity) as [ent [x|]];
        exact I.
  - run_op. answer t. destruct (negb _); simpl; [exact I|].
    destruct (jsonrt.Unmarshal_Entity body zero_Entity) as [ent [x|]]; exact I.
  - run_op. answer t. destruct (negb _); simpl; [exact I|]. now destruct body.
  - run_op. answer t. destruct (negb _); simpl; [exact I|]. now destruct body.
  - run_op. answer t. destruct (negb _); simpl; [exact I|]. now destruct body.
  - run_op. answer t. destruct err; simpl; [exact I|].
    destruct (wit.parseEntities body) as [[r|] x]; exact I.
  - run_op. answer t. destruct err; simpl; [exact I|].
    destruct (wit.parseEntity body) as [[r|] x]; exact I.
  - run_op. destruct entity as [l|]; simpl.
    + destruct (PositiveMap.find l (entities h)) eqn:E; simpl; [|exact I].
      destruct (wit.Marshal_Entity _) as [data e0]. simpl. rewrite E. simpl.
      answer t. destruct (negb _); simpl; [exact I|]. now destruct body.
    + destruct (wit.Marshal_Entity _) as [data e0]. exact I.
Qed.

(** ** What is sent can be read back *)

(** X7: [parseEntityValue] reads what [json.Marshal] writes for an entity
    value whose strings are valid UTF-8: the same value and expressions
    come back, a nil expression list as nil, with a nil error. *)
Theorem X7_parseEntityValue_reads_marshalled (v : EntityValue)
        (Hv : valid_EntityValue v = true) :
  wit.parseEntityValue (fst (jsonrt.Marshal_EntityValue (Some v)))
  = (Some v, None).
Proof.
  unfold wit.parseEntityValue, jsonrt.Unmarshal_EntityValue, jsonrt.Unmarshal,
    jsonrt.Marshal_EntityValue.
  cbn [fst]. rewrite (parse_EntityValue v Hv).
  now rewrite decode_encode_EntityValue.
Qed.

Lemma X7_witness :
  wit.parseEntityValue
    (fst (jsonrt.Marshal_EntityValue
            (Some {| Value := "Paris"; Expressions := None |})))
  = (Some {| Value := "Paris"; Expressions := None |}, None).
Proof.
  exact (X7_parseEntityValue_reads_marshalled
           {| Value := "Paris"; Expressions := None |} eq_refl).
Defined.

(** X8: [parseEntities] reads the document of a list of valid UTF-8
    strings as that list, in order, and the document [null] of a nil list
    as a nil list behind a pointer that is not nil. *)
Theorem X8_parseEntities_reads_marshalled (l : Entities)
        (Hl : valid_strings l = true) :
  wit.parseEntities (Some (json.print (jsonrt.encode_strings l)))
  = (Some l, None).
Proof.
  unfold wit.parseEntities, jsonrt.Unmarshal_Entities, jsonrt.Unmarshal.
  rewrite (parse_strings l Hl).
  destruct l as [names|]; [|reflexivity].
  unfold jsonrt.decode_Entities, jsonrt.decode_slice, jsonrt.encode_strings.
  now rewrite decode_strings_elems.
Qed.

Lemma X8_witness :
  wit.parseEntities (Some "null") = (Some None, None)
  /\ wit.parseEntities (Some two_entities)
     = (Some (Some ("wit$temperature" :: "favorite_city" :: nil)), None).
Proof.
  split.
  - exact (X8_parseEntities_reads_marshalled None eq_refl).
  - exact (X8_parseEntities_reads_marshalled
             (Some ("wit$temperature" :: "favorite_city" :: nil)) eq_refl).
Defined.

(** X9: for an entity whose strings are valid UTF-8, [CreateEntity] posts
    to [/entities] and [UpdateEntity] puts to [/entities/] followed by the
    [Id] of the entity, as it is; both send the same body, and
    [parseEntity] reads that body back as the entity. *)
Theorem X9_entity_body_reads_back
        (client : wit.WitClient) (l : loc) (e : Entity)
        (t : Transport) (h : Heap)
        (He : PositiveMap.find l (entities h) = Some e)
        (Hvalid : valid_Entity e = true) :
  exists data,
    issues (wit.CreateEntity client (Some l)) t h
           (Post (wit.ApiBase client ++ "/entities") data)
    /\ issues (wit.UpdateEntity client (Some l)) t h
              (Put (wit.ApiBase client ++ "/entities/" ++ Id e) data)
    /\ wit.parseEntity data = (Some e, None).
Proof.
  exists (fst (jsonrt.Marshal_Entity (Some e))). repeat split.
  - unfold issues. run_op. rewrite He. simpl. answer t.
    destruct (negb _); eexists; reflexivity.
  - unfold issues. run_op. rewrite He. simpl. rewrite He. simpl. answer t.
    destruct (negb _); eexists; reflexivity.
  - unfold wit.parseEntity, jsonrt.Unmarshal_Entity, jsonrt.Unmarshal,
      jsonrt.Marshal_Entity.
    cbn [fst]. rewrite (parse_Entity e Hvalid).
    now rewrite decode_encode_Entity.
Qed.

Lemma X9_witness :
  exists data,
    issues (wit.CreateEntity api (Some 1%positive)) (always (None, 200, None))
           (one_entity_heap favorite_city)
           (Post "https://api.wit.ai/entities" data)
    /\ issues (wit.UpdateEntity api (Some 1%positive)) (always (None, 200, None))
              (one_entity_heap favorite_city)
              (Put "https://api.wit.ai/entities/favorite_city" data)
    /\ wit.parseEntity data = (Some favorite_city, None).
Proof.
  exact (X9_entity_body_reads_back api 1%positive favorite_city
           (always (None, 200, None)) (one_entity_heap favorite_city)
           eq_refl eq_refl).
Defined.

(** X10: [CreateEntityValue] posts to [/entities/{id}/values] the document
    of the entity value, which [parseEntityValue] reads back as that value
    when its strings are valid UTF-8. *)
Theorem X10_entity_value_body_reads_back
        (client : wit.WitClient) (id : string) (l : loc) (v : EntityValue)
        (t : Transport) (h : Heap)
        (Hv : PositiveMap.find l (entityValues h) = Some v)
        (Hvalid : valid_EntityValue v = true) :
  exists data,
    issues (wit.CreateEntityValue client id (Some l)) t h
           (Post (wit.ApiBase client ++ "/entities/" ++ id ++ "/values") data)
    /\ wit.parseEntityValue data = (Some v, None).
Proof.
  exists (fst (jsonrt.Marshal_EntityValue (Some v))). split.
  - unfold issues. run_op. rewrite Hv. simpl. answer t.
    destruct (negb _); simpl; [eexists; reflexivity|].
    destruct (jsonrt.Unmarshal_Entity body zero_Entity) as [ent [x|]];
      eexists; reflexivity.
  - unfold wit.parseEntityValue, jsonrt.Unmarshal_EntityValue,
      jsonrt.Unmarshal, jsonrt.Marshal_EntityValue.
    cbn [fst]. rewrite (parse_EntityValue v Hvalid).
    now rewrite decode_encode_EntityValue.
Qed.

Lemma X10_witness :
  exists data,
    issues (wit.CreateEntityValue api "favorite_city" (Some 1%positive))
           (always (None, 200, None))
           (one_value_heap {| Value := "Paris"; Expressions := Some nil |})
           (Post "https://api.wit.ai/entities/favorite_city/values" data)
    /\ wit.parseEntityValue data
       = (Some {| Value := "Paris"; Expressions := Some nil |}, None).
Proof.
  exact (X10_entity_value_body_reads_back api "favorite_city" 1%positive
           {| Value := "Paris"; Expressions := Some nil |}
           (always (None, 200, None))
           (one_value_heap {| Value := "Paris"; Expressions := Some nil |})
           eq_refl eq_refl).
Defined.

(** X11: when the GET returns a nil error and the document of an entity
    whose strings are valid UTF-8, [Entity] returns that entity and a nil
    error, for every status code and whatever id was asked for: the id of
    the document is not compared with the argument. *)
Theorem X11_Entity_returns_the_document
        (client : wit.WitClient) (id : string) (t : Transport) (h : Heap)
        (e : Entity) (status : Z)
        (Hget : t (Get (wit.ApiBase client ++ "/entities/" ++ id))
                = (fst (jsonrt.Marshal_Entity (Some e)), status, None))
        (Hvalid : valid_Entity e = true) :
  fst (run (wit.Entity client id) t h) = Returned (Some e, None).
Proof.
  assert (Hp : wit.parseEntity (fst (jsonrt.Marshal_Entity (Some e)))
               = (Some e, None)).
  { unfold wit.parseEntity, jsonrt.Unmarshal_Entity, jsonrt.Unmarshal,
      jsonrt.Marshal_Entity.
    cbn [fst]. rewrite (parse_Entity e Hvalid).
    now rewrite decode_encode_Entity. }
  remember (fst (jsonrt.Marshal_Entity (Some e))) as body eqn:Hb.
  run_op. simpl in Hget. rewrite Hget. simpl. now rewrite Hp.
Qed.

Lemma X11_witness :
  fst (run (wit.Entity api "favorite_team")
           (always (fst (jsonrt.Marshal_Entity (Some favorite_city)), 200, None))
           empty_heap)
  = Returned (Some favorite_city, None).
Proof.
  exact (X11_Entity_returns_the_document api "favorite_team"
           (always (fst (jsonrt.Marshal_Entity (Some favorite_city)), 200, None))
           empty_heap favorite_city 200 eq_refl eq_refl).
Defined.

(** X12: the two parsers do not read each other's documents. The document
    of an entity gives a nil list and an error from [parseEntities]; the
    document of a list of names gives a nil entity and an error from
    [parseEntity]. *)
Theorem X12_parsers_reject_the_other_document
        (e : Entity) (names : list string)
        (He : valid_Entity e = true)
        (Hn : forallb utf8.ValidString names = true) :
  (exists err,
      wit.parseEntities (fst (jsonrt.Marshal_Entity (Some e)))
      = (None, Some err))
  /\ (exists err,
         wit.parseEntity
           (Some (json.print (json.Array (List.map json.Str names))))
         = (None, Some err)).
Proof.
  split.
  - unfold wit.parseEntities, jsonrt.Unmarshal_Entities, jsonrt.Unmarshal,
      jsonrt.Marshal_Entity.
    cbn [fst]. rewrite (parse_Entity e He).
    eexists. reflexivity.
  - unfold wit.parseEntity, jsonrt.Unmarshal_Entity, jsonrt.Unmarshal.
    rewrite (parse_marshalled_names names Hn). eexists. reflexivity.
Qed.

Lemma X12_witness :
  (exists err,
      wit.parseEntities (fst (jsonrt.Marshal_Entity (Some favorite_city)))
      = (None, Some err))
  /\ (exists err,
         wit.parseEntity
           (Some (json.print (json.Array (List.map json.Str ("a" :: nil)))))
         = (None, Some err)).
Proof.
  exact (X12_parsers_reject_the_other_document favorite_city ("a" :: nil)
           eq_refl eq_refl).
Defined.

(** ** Keys of the entity document *)

Lemma printable_wire_Entity (e : Entity) :
  valid_Entity e = true -> printable (wire_Entity e) = true.
Proof.
  intros H. pose proof (printable_Entity e H) as Hp.
  unfold wire_Entity, jsonrt.encode_Entity in *.
  cbn [printable forallb fst snd] in *.
  change (utf8.ValidString "Values") with true in Hp.
  change (utf8.ValidString "values") with true.
  exact Hp.
Qed.

Lemma parse_wire_Entity (e : Entity) :
  valid_Entity e = true ->
  json.parse (json.print (wire_Entity e)) = Some (wire_Entity e).
Proof.
  intros H. apply parse_print; [now apply printable_wire_Entity|].
  pose proof (nesting_Entity e) as Hn.
  unfold wire_Entity, jsonrt.encode_Entity in *.
  cbn [nesting List.fold_right snd] in *.
  unfold json.maxNestingDepth. lia.
Qed.

(** X13: the field [Values] has no tag, so the encoder writes the key
    [Values]; the decoder matches keys up to case, and [parseEntity] reads
    the value list from the lower-case key [values] of the service as
    well. *)
Theorem X13_parseEntity_reads_lower_case_values (e : Entity)
        (He : valid_Entity e = true) :
  wit.parseEntity (Some (json.print (wire_Entity e))) = (Some e, None).
Proof.
  unfold wit.parseEntity, jsonrt.Unmarshal_Entity, jsonrt.Unmarshal.
  rewrite (parse_wire_Entity e He).
  destruct e as [builtin doc id values].
  unfold jsonrt.decode_Entity, wire_Entity.
  rewrite (decode_members_cons _ _ _ _ _ _ F_Builtin) by reflexivity.
  cbn [jsonrt.set_Entity jsonrt.decode_bool Builtin Doc Id Values zero_Entity].
  rewrite (decode_members_cons _ _ _ _ _ _ F_Doc) by reflexivity.
  cbn [jsonrt.set_Entity jsonrt.decode_string Builtin Doc Id Values].
  rewrite (decode_members_cons _ _ _ _ _ _ F_Id) by reflexivity.
  cbn [jsonrt.set_Entity jsonrt.decode_string Builtin Doc Id Values].
  rewrite (decode_members_cons _ _ _ _ _ _ F_Values) by reflexivity.
  cbn [jsonrt.set_Entity Builtin Doc Id Values].
  rewrite decode_encode_EntityValues. reflexivity.
Qed.

Lemma X13_witness :
  wit.parseEntity (Some (json.print (wire_Entity favorite_city)))
  = (Some favorite_city, None).
Proof.
  exact (X13_parseEntity_reads_lower_case_values favorite_city eq_refl).
Defined.

Lemma decode_members_skip {T F : Type} (fields : list (string * F))
      (set : F -> T -> json.Value -> T * error) (cur : T) (k : string)
      (v : json.Value) (ms : list (string * json.Value)) :
  jsonrt.find_field fields k = None ->
  jsonrt.decode_members fields set cur ((k, v) :: ms)
  = jsonrt.decode_members fields set cur ms.
Proof. intros H. cbn [jsonrt.decode_members]. now rewrite H. Qed.

(** X14: a member whose key denotes no field of [Entity], neither exactly
    nor up to case, is skipped: the document with such a member in front
    is read as the document without it. The value of the member is any
    document of null, booleans, valid UTF-8 strings, arrays and objects
    that, inside the entity document, stays within the nesting the
    scanner allows. *)
Theorem X14_parseEntity_skips_unknown_keys
        (e : Entity) (k : string) (v : json.Value)
        (He : valid_Entity e = true)
        (Hk : jsonrt.find_field Entity_fields k = None)
        (Hkey : utf8.ValidString k = true)
        (Hv : printable v = true)
        (Hdepth : 1 + nesting v <= json.maxNestingDepth) :
  wit.parseEntity
    (Some (json.print (with_member k v (jsonrt.encode_Entity e))))
  = (Some e, None).
Proof.
  pose proof (decode_encode_Entity e) as Hd.
  pose proof (printable_Entity e He) as Hp.
  pose proof (nesting_Entity e) as Hn.
  unfold wit.parseEntity, jsonrt.Unmarshal_Entity, jsonrt.Unmarshal.
  unfold jsonrt.encode_Entity, with_member in *.
  rewrite parse_print.
  - unfold jsonrt.decode_Entity in *.
    rewrite (decode_members_skip _ _ _ _ _ _ Hk), Hd. reflexivity.
  - cbn [printable forallb fst snd] in *. now rewrite Hkey, Hv, Hp.
  - cbn [nesting List.fold_right snd] in *.
    unfold json.maxNestingDepth in *. lia.
Qed.

Lemma X14_witness :
  wit.parseEntity
    (Some (json.print
             (with_member "lang"
                (json.Array (json.Str "en" :: json.Null :: nil))
                (jsonrt.encode_Entity favorite_city))))
  = (Some favorite_city, None).
Proof.
  apply (X14_parseEntity_skips_unknown_keys favorite_city "lang"
           (json.Array (json.Str "en" :: json.Null :: nil))).
  - reflexivity.
  - reflexivity.
  - reflexivity.
  - reflexivity.
  - vm_compute. discriminate.
Defined.

(** ** The escaped expression *)

Lemma str_forallb_app (p : ascii -> bool) (a b : string) :
  str_forallb p (a ++ b) = str_forallb p a && str_forallb p b.
Proof.
  induction a as [|c a IH]; simpl; [reflexivity|].
  now rewrite IH, andb_assoc.
Qed.

Lemma str_forallb_mem (p : ascii -> bool) (s : string) (c : ascii) :
  str_forallb p s = true -> p c = false -> str_mem c s = false.
Proof.
  intros Hs Hc. induction s as [|d s IH]; simpl in *; [reflexivity|].
  apply andb_prop in Hs. destruct Hs as [Hd Hs].
  rewrite (IH Hs), orb_false_r.
  destruct (Ascii.eqb_spec c d) as [->|]; [congruence | reflexivity].
Qed.

Lemma QueryEscape_bytes (s : string) :
  str_forallb escaped_byte (url.QueryEscape s) = true.
Proof.
  induction s as [|c s IH]; [reflexivity|].
  cbn [url.QueryEscape]. rewrite str_forallb_app, IH, andb_true_r.
  destruct c as [[] [] [] [] [] [] [] []]; reflexivity.
Qed.

Lemma append_inv_head (p a b : string) : p ++ a = p ++ b -> a = b.
Proof.
  induction p as [|c p IH]; simpl; [trivial|].
  intros H. injection H as H. now apply IH.
Qed.

Lemma QueryEscape_inj (a b : string) :
  url.QueryEscape a = url.QueryEscape b -> a = b.
Proof.
  pose (digit := fun h => match json.hexval h with Some x => x | None => 0 end).
  pose (dec := fun s =>
    match s with
    | EmptyString => None
    | String c r =>
      if Ascii.eqb c "+" then Some (" "%char, r)
      else if Ascii.eqb c "%" then
        match r with
        | String h1 (String h2 r') =>
          Some (byte_of (16 * digit h1 + digit h2), r')
        | _ => None
        end
      else Some (c, r)
    end).
  assert (Hdec : forall c r, dec (url.QueryEscape (String c r))
                             = Some (c, url.QueryEscape r)).
  { intros c r. cbn [url.QueryEscape].
    destruct c as [[] [] [] [] [] [] [] []]; reflexivity. }
  revert b. induction a as [|c a IH]; intros [|d b] H.
  - reflexivity.
  - apply (f_equal dec) in H. rewrite Hdec in H. discriminate.
  - apply (f_equal dec) in H. rewrite Hdec in H. discriminate.
  - apply (f_equal dec) in H. rewrite !Hdec in H.
    injection H as -> H. now rewrite (IH _ H).
Qed.

Lemma QueryEscape_unreserved (s : string) :
  str_forallb unreserved s = true -> url.QueryEscape s = s.
Proof.
  induction s as [|c s IH]; [reflexivity|].
  cbn [url.QueryEscape str_forallb]. intros H.
  apply andb_prop in H. destruct H as [Hc Hs]. rewrite (IH Hs).
  unfold unreserved in Hc. apply negb_true_iff in Hc. rewrite Hc.
  destruct (Ascii.eqb_spec c " ") as [->|]; [discriminate | reflexivity].
Qed.

(** X15: the escaped expression that [DeleteEntityValueExp] appends holds
    only letters, digits and the bytes [-], [_], [.], [~], [+] and [%]:
    whatever the expression is, it adds no [/], [?], [#] or space to the
    resource. *)
Theorem X15_escaped_expression_is_one_segment :
  forall (client : wit.WitClient) (id value exp : string)
         (t : Transport) (h : Heap),
    issues (wit.DeleteEntityValueExp client id value exp) t h
           (Delete (wit.ApiBase client ++ "/entities/")
                   (id ++ "/values/" ++ value ++ "/expression/"
                    ++ url.QueryEscape exp))
    /\ str_forallb escaped_byte (url.QueryEscape exp) = true
    /\ str_mem "/" (url.QueryEscape exp) = false
    /\ str_mem "?" (url.QueryEscape exp) = false
    /\ str_mem "#" (url.QueryEscape exp) = false
    /\ str_mem " " (url.QueryEscape exp) = false.
Proof.
  intros client id value exp t h.
  pose proof (QueryEscape_bytes exp) as Hb.
  repeat split;
    try (apply (str_forallb_mem escaped_byte _ _ Hb); reflexivity);
    try assumption.
  unfold issues. run_op. answer t. destruct (negb _); eexists; reflexivity.
Qed.

(** X16: [url.QueryEscape] loses nothing: for the same id and value, two
    different expressions make [DeleteEntityValueExp] send two different
    requests. *)
Theorem X16_different_expressions_different_requests
        (client : wit.WitClient) (id value exp1 exp2 : string)
        (t : Transport) (h : Heap)
        (Hne : exp1 <> exp2) :
  sent (snd (run (wit.DeleteEntityValueExp client id value exp1) t h))
  <> sent (snd (run (wit.DeleteEntityValueExp client id value exp2) t h)).
Proof.
  assert (Hs : forall exp,
             sent (snd (run (wit.DeleteEntityValueExp client id value exp) t h))
             = Delete (wit.ApiBase client ++ "/entities/")
                      (id ++ "/values/" ++ value ++ "/expression/"
                       ++ url.QueryEscape exp) :: nil).
  { intros exp. run_op. answer t. destruct (negb _); reflexivity. }
  rewrite !Hs. intros H. injection H as H.
  apply append_inv_head in H. simpl in H. repeat (injection H as H).
  apply append_inv_head in H. simpl in H. repeat (injection H as H).
  exact (Hne (QueryEscape_inj _ _ H)).
Qed.

Lemma X16_witness :
  sent (snd (run (wit.DeleteEntityValueExp api "favorite_city" "Paris" "a b")
                 (always (None, 200, None)) empty_heap))
  <> sent (snd (run (wit.DeleteEntityValueExp api "favorite_city" "Paris" "a+b")
                    (always (None, 200, None)) empty_heap)).
Proof.
  apply (X16_different_expressions_different_requests
           api "favorite_city" "Paris" "a b" "a+b"
           (always (None, 200, None)) empty_heap).
  discriminate.
Defined.

(** X17: an expression of letters, digits, [-], [_], [.] and [~] only is
    appended as it is. *)
Theorem X17_unreserved_expression_is_sent_verbatim
        (client : wit.WitClient) (id value exp : string)
        (t : Transport) (h : Heap)
        (Hexp : str_forallb unreserved exp = true) :
  issues (wit.DeleteEntityValueExp client id value exp) t h
         (Delete (wit.ApiBase client ++ "/entities/")
                 (id ++ "/values/" ++ value ++ "/expression/" ++ exp)).
Proof.
  rewrite <- (QueryEscape_unreserved exp Hexp) at 2.
  unfold issues. run_op. answer t. destruct (negb _); eexists; reflexivity.
Qed.

Lemma X17_witness :
  issues (wit.DeleteEntityValueExp api "favorite_city" "Paris" "Paname")
         (always (None, 200, None)) empty_heap
         (Delete "https://api.wit.ai/entities/"
                 "favorite_city/values/Paris/expression/Paname").
Proof.
  exact (X17_unreserved_expression_is_sent_verbatim
           api "favorite_city" "Paris" "Paname"
           (always (None, 200, None)) empty_heap eq_refl).
Defined.

(** X18: ids and values go into the resource as they are, slashes
    included. [DeleteEntityValue] of an id and a value is the very call
    that [DeleteEntity] makes for the id followed by [/values/] and the
    value, and for an expression of unreserved characters
    [DeleteEntityValueExp] is [DeleteEntityValue] of the value followed by
    [/expression/] and the expression. *)
Theorem X18_identifiers_are_not_escaped
        (client : wit.WitClient) (id value exp : string)
        (t : Transport) (h : Heap)
        (Hexp : str_forallb unreserved exp = true) :
  run (wit.DeleteEntityValue client id value) t h
  = run (wit.DeleteEntity client (id ++ "/values/" ++ value)) t h
  /\ run (wit.DeleteEntityValueExp client id value exp) t h
     = run (wit.DeleteEntityValue client id (value ++ "/expression/" ++ exp))
           t h.
Proof.
  split; [reflexivity|].
  unfold wit.DeleteEntityValueExp, wit.DeleteEntityValue.
  rewrite (QueryEscape_unreserved exp Hexp). reflexivity.
Qed.

Lemma X18_witness :
  run (wit.DeleteEntityValueExp api "favorite_city" "Paris" "Paname")
      (always (None, 200, None)) empty_heap
  = run (wit.DeleteEntity api "favorite_city/values/Paris/expression/Paname")
        (always (None, 200, None)) empty_heap.
Proof.
  destruct (X18_identifiers_are_not_escaped api "favorite_city" "Paris"
              "Paname" (always (None, 200, None)) empty_heap eq_refl)
    as [_ H2].
  rewrite H2.
  exact (proj1 (X18_identifiers_are_not_escaped api "favorite_city"
                  "Paris/expression/Paname" "Paname"
                  (always (None, 200, None)) empty_heap eq_refl)).
Defined.

(** ** The bytes of a marshalled document *)

Lemma str_forallb_impl (p q : ascii -> bool) (s : string) :
  (forall c, p c = true -> q c = true) ->
  str_forallb p s = true -> str_forallb q s = true.
Proof.
  intros Hpq. induction s as [|c s IH]; simpl; [trivial|].
  intros H. apply andb_prop in H. destruct H as [Hc Hs].
  now rewrite (Hpq c Hc), (IH Hs).
Qed.

Lemma high_byte_is_plain (c : ascii) :
  (utf8.RuneSelf <=? byte_val c) = true -> plain_byte c = true.
Proof.
  unfold plain_byte, utf8.RuneSelf. intros H. apply Z.leb_le in H.
  repeat (apply andb_true_intro; split);
    try apply negb_true_iff; try apply Z.eqb_neq; try apply Z.leb_le; lia.
Qed.

Lemma appendString_loop_plain (f : nat) (s : string) :
  str_forallb plain_byte (json.appendString_loop f s) = true.
Proof.
  revert s. induction f as [|f IH]; intros s; [reflexivity|].
  destruct s as [|c r]; [reflexivity|].
  cbn [json.appendString_loop].
  destruct (byte_val c <? utf8.RuneSelf) eqn:E0.
  { rewrite str_forallb_app, IH, andb_true_r.
    destruct c as [[] [] [] [] [] [] [] []]; reflexivity. }
  destruct (utf8.DecodeRuneInString (String c r)) as [n size] eqn:Ed.
  destruct ((n =? utf8.RuneError) && (size =? 1)%nat)%bool eqn:E1.
  { rewrite str_forallb_app, IH. reflexivity. }
  destruct ((n =? 0x2028) || (n =? 0x2029))%bool eqn:E2.
  { rewrite !str_forallb_app, IH, andb_true_r.
    apply orb_prop in E2. destruct E2 as [E2|E2]; apply Z.eqb_eq in E2;
      subst n; reflexivity. }
  rewrite str_forallb_app, IH, andb_true_r.
  assert (Hv : ~ (n = utf8.RuneError /\ size = 1%nat)).
  { intros [-> ->]. discriminate E1. }
  apply Z.ltb_ge in E0.
  destruct (DecodeRune_multibyte c r n size E0 Ed Hv) as (_ & _ & Hh & _).
  exact (str_forallb_impl _ _ _ high_byte_is_plain Hh).
Qed.

Lemma appendString_plain (s : string) :
  str_forallb plain_byte (json.appendString s) = true.
Proof.
  unfold json.appendString. cbn [str_forallb].
  rewrite str_forallb_app, appendString_loop_plain. reflexivity.
Qed.

Lemma print_elems_plain (vs : list json.Value) :
  (forall v, In v vs -> str_forallb plain_byte (json.print v) = true) ->
  str_forallb plain_byte (json.print_elems json.print vs) = true.
Proof.
  induction vs as [|v vs IH]; intros H; [reflexivity|].
  destruct vs as [|w vs].
  - apply H. now left.
  - change (json.print_elems json.print (v :: w :: vs))
      with (json.print v ++ "," ++ json.print_elems json.print (w :: vs)).
    rewrite !str_forallb_app, (H v (or_introl eq_refl)), IH; [reflexivity|].
    intros x Hx. apply H. now right.
Qed.

Lemma print_strings_plain (l : slice string) :
  str_forallb plain_byte (json.print (jsonrt.encode_strings l)) = true.
Proof.
  destruct l as [xs|]; [|reflexivity].
  cbn [jsonrt.encode_strings json.print].
  rewrite !str_forallb_app, print_elems_plain; [reflexivity|].
  intros v Hv. apply in_map_iff in Hv. destruct Hv as (x & <- & _).
  apply appendString_plain.
Qed.

Lemma print_EntityValue_plain (v : EntityValue) :
  str_forallb plain_byte (json.print (jsonrt.encode_EntityValue v)) = true.
Proof.
  unfold jsonrt.encode_EntityValue.
  cbn [json.print json.print_members].
  rewrite !str_forallb_app, !appendString_plain, print_strings_plain.
  reflexivity.
Qed.

Lemma print_Entity_plain (e : Entity) :
  str_forallb plain_byte (json.print (jsonrt.encode_Entity e)) = true.
Proof.
  unfold jsonrt.encode_Entity.
  cbn [json.print json.print_members].
  rewrite !str_forallb_app, !appendString_plain.
  assert (Hvs : str_forallb plain_byte
                  (json.print (jsonrt.encode_EntityValues (Values e))) = true).
  { destruct (Values e) as [vs|]; [|reflexivity].
    cbn [jsonrt.encode_EntityValues json.print].
    rewrite !str_forallb_app, print_elems_plain; [reflexivity|].
    intros v Hv. apply in_map_iff in Hv. destruct Hv as (x & <- & _).
    apply print_EntityValue_plain. }
  rewrite Hvs. now destruct (Builtin e).
Qed.

(** X19: for an entity whose strings are valid UTF-8, the body that
    [CreateEntity] and [UpdateEntity] send has no byte below 0x20 (no line
    feed, no tab, no other control character of ASCII) and none of [<],
    [>] and [&]: the encoder writes those as escapes. DEL and the
    characters beyond ASCII are not escaped, and nothing is said of
    them. *)
Theorem X19_entity_body_is_plain
        (client : wit.WitClient) (l : loc) (e : Entity)
        (t : Transport) (h : Heap)
        (He : PositiveMap.find l (entities h) = Some e)
        (Hvalid : valid_Entity e = true) :
  exists text,
    issues (wit.CreateEntity client (Some l)) t h
           (Post (wit.ApiBase client ++ "/entities") (Some text))
    /\ issues (wit.UpdateEntity client (Some l)) t h
              (Put (wit.ApiBase client ++ "/entities/" ++ Id e) (Some text))
    /\ str_forallb plain_byte text = true
    /\ str_mem "<" text = false
    /\ str_mem ">" text = false
    /\ str_mem "&" text = false
    /\ str_mem "010" text = false
    /\ str_mem "009" text = false.
Proof.
  exists (json.print (jsonrt.encode_Entity e)).
  pose proof (print_Entity_plain e) as Hp.
  repeat split;
    try (apply (str_forallb_mem plain_byte _ _ Hp); reflexivity);
    try assumption.
  - unfold issues. run_op. rewrite He. simpl. answer t.
    destruct (negb _); eexists; reflexivity.
  - unfold issues. run_op. rewrite He. simpl. rewrite He. simpl. answer t.
    destruct (negb _); eexists; reflexivity.
Qed.

Lemma X19_witness :
  exists text,
    issues (wit.CreateEntity api (Some 1%positive)) (always (None, 200, None))
           (one_entity_heap
              {| Builtin := true; Doc := "<b>Tom & Jerry</b>";
                 Id := String "010" "city"; Values := None |})
           (Post "https://api.wit.ai/entities" (Some text))
    /\ str_forallb plain_byte text = true.
Proof.
  destruct (X19_entity_body_is_plain api 1%positive
              {| Builtin := true; Doc := "<b>Tom & Jerry</b>";
                 Id := String "010" "city"; Values := None |}
              (always (None, 200, None))
              (one_entity_heap
                 {| Builtin := true; Doc := "<b>Tom & Jerry</b>";
                    Id := String "010" "city"; Values := None |})
              eq_refl eq_refl) as (text & H1 & _ & H3 & _).
  exists text. split; [exact H1 | exact H3].
Defined.
